(** * Google Keep clone, gRPC service: a shallow embedding of [src/index.js]

    The gRPC service keeps four module-level arrays ([users], [notes], [tags],
    [tokenBlacklist]); every handler reads [call.request], updates the
    arrays and answers through [callback(null, response)].  Handlers are
    embedded as functions from the store to a response and a new store.
    What a handler takes from its environment (a fresh [uuidv4()], a reading
    of the clock, the salt drawn by bcrypt) is an explicit argument.

    [saveData] only writes the four arrays to disk and swallows its errors:
    it changes neither the arrays nor the response, and is left out of the
    handlers; the reading of the files at start is modelled apart
    ([loadData]). *)

From Stdlib Require Import String List ZArith Bool Lia.
Import ListNotations.

Local Open Scope string_scope.
Local Open Scope Z_scope.

(** ** JavaScript arrays and values *)

Module Js.

(** [Array.prototype.some] *)
Definition some {A} (p : A -> bool) (l : list A) : bool := existsb p l.

(** [Array.prototype.find]: [undefined] is [None]. *)
Definition find {A} (p : A -> bool) (l : list A) : option A := List.find p l.

(** [Array.prototype.findIndex]: [-1] is [None]. *)
Fixpoint findIndex {A} (p : A -> bool) (l : list A) : option nat :=
  match l with
  | [] => None
  | x :: r => if p x then Some O else option_map S (findIndex p r)
  end.

(** [a.splice(i, 1)] *)
Fixpoint splice1 {A} (i : nat) (l : list A) : list A :=
  match l, i with
  | [], _ => []
  | _ :: r, O => r
  | x :: r, S j => x :: splice1 j r
  end.

(** [a[i] = v] for an index inside the array. *)
Fixpoint assign {A} (i : nat) (v : A) (l : list A) : list A :=
  match l, i with
  | [], _ => []
  | _ :: r, O => v :: r
  | x :: r, S j => x :: assign j v r
  end.

(** [a.push(v)] *)
Definition push {A} (v : A) (l : list A) : list A := l ++ [v].

(** [a.includes(s)] on an array of strings *)
Definition includes (s : string) (l : list string) : bool :=
  existsb (fun x => x =? s)%string l.

(** [s || d] on a string that may be [undefined]: the empty string is falsy. *)
Definition orElse (s : option string) (d : string) : string :=
  match s with
  | Some x => if (x =? "")%string then d else x
  | None => d
  end.

(** Truthiness of a string that may be [undefined]. *)
Definition truthy (s : option string) : bool :=
  match s with
  | Some x => negb (x =? "")%string
  | None => false
  end.

(** [x !== undefined ? x : old] *)
Definition defined {A} (x : option A) (old : A) : A :=
  match x with
  | Some v => v
  | None => old
  end.

(** A [Date] is valid within 8.64e15 ms of the epoch; [toISOString] throws
    a [RangeError] on an invalid one.  An ISO string is represented by the
    instant in milliseconds that it denotes, so [new Date(iso)] is the
    identity. *)
Definition maxDate : Z := 8640000000000000.

Definition toISOString (ms : Z) : option Z :=
  if Z.abs ms <=? maxDate then Some ms else None.

End Js.

(** ** Data model *)

Record User := mkUser {
  user_id : string;
  user_username : string;
  user_password : string
}.

(** [tagIds] may be missing on a note read back from [notes.json]; the
    handlers test [note.tagIds && ...]. *)
Record Note := mkNote {
  note_id : string;
  note_title : string;
  note_content : string;
  note_tagIds : option (list string);
  note_userId : string;
  note_createdAt : Z;
  note_updatedAt : Z;
  note_archived : bool;
  note_color : string
}.

Record Tag := mkTag {
  tag_id : string;
  tag_name : string;
  tag_userId : string;
  tag_createdAt : Z;
  tag_updatedAt : Z
}.

Record Revoked := mkRevoked {
  token : string;
  expiresAt : Z
}.

Definition Revoked_eq_dec (x y : Revoked) : {x = y} + {x <> y}.
Proof. decide equality; [apply Z.eq_dec | apply string_dec]. Defined.

Record Store := mkStore {
  users : list User;
  notes : list Note;
  tags : list Tag;
  tokenBlacklist : list Revoked
}.

Definition emptyStore : Store := mkStore [] [] [] [].

Definition setUsers (f : list User -> list User) (st : Store) : Store :=
  mkStore (f (users st)) (notes st) (tags st) (tokenBlacklist st).

Definition setNotes (f : list Note -> list Note) (st : Store) : Store :=
  mkStore (users st) (f (notes st)) (tags st) (tokenBlacklist st).

Definition setTags (f : list Tag -> list Tag) (st : Store) : Store :=
  mkStore (users st) (notes st) (f (tags st)) (tokenBlacklist st).

Definition setBlacklist (f : list Revoked -> list Revoked) (st : Store) : Store :=
  mkStore (users st) (notes st) (tags st) (f (tokenBlacklist st)).

(** ** The libraries the service calls *)

(** The claims of a token; [exp] and [iat] are in seconds. *)
Record Claims := mkClaims {
  claim_id : string;
  claim_username : string;
  claim_iat : option Z;
  claim_exp : option Z
}.

(** [jsonwebtoken].  [verify] throws on a bad signature, a malformed token
    or an expired one ([None]); [decode] reads the payload without looking at
    the signature and returns [null] ([None]) when there is none. *)
Class Jwt := {
  jwt_sign : string -> string -> string -> Z -> string;
  jwt_verify : string -> string -> Z -> option Claims;
  jwt_decode : string -> option Claims
}.

(** [bcrypt].  [hash] takes the password and the salt it draws; [None] is
    the [err] of the callback. *)
Class Bcrypt := {
  bcrypt_hash : string -> string -> option string;
  bcrypt_compare : string -> string -> option bool
}.


(** ** Messages of [proto/keep.proto]

    A field that a handler tests against [undefined] or for truthiness is an
    [option]. *)

Record UserInfo := mkUserInfo {
  info_id : string;
  info_username : string
}.

Record Response (A : Type) := mkResponse {
  success : bool;
  message : string;
  payload : option A
}.
Arguments mkResponse {A}.
Arguments success {A}.
Arguments message {A}.
Arguments payload {A}.

Definition failure {A} (msg : string) : Response A := mkResponse false msg None.
Definition ok {A} (msg : string) (x : A) : Response A := mkResponse true msg (Some x).

Record AuthPayload := mkAuthPayload {
  auth_token : string;
  auth_user : UserInfo
}.

Record Credentials := mkCredentials {
  cred_username : string;
  cred_password : string
}.

Inductive Verified :=
| Valid (user : Claims)
| NotValid (msg : string).

Record NoteFilter := mkNoteFilter {
  filter_userId : string;
  filter_archived : option bool;
  filter_tagId : option string
}.

Record OwnedId := mkOwnedId {
  owned_id : string;
  owned_userId : string
}.

Record NewNote := mkNewNote {
  new_title : option string;
  new_content : option string;
  new_tagIds : option (list string);
  new_userId : string;
  new_color : option string
}.

Record NotePatch := mkNotePatch {
  patch_id : string;
  patch_title : option string;
  patch_content : option string;
  patch_tagIds : option (list string);
  patch_userId : string;
  patch_archived : option bool;
  patch_color : option string
}.

Record NewTag := mkNewTag {
  newtag_name : string;
  newtag_userId : string
}.

Record TagPatch := mkTagPatch {
  tagpatch_id : string;
  tagpatch_name : option string;
  tagpatch_userId : string
}.

Record UserPatch := mkUserPatch {
  userpatch_id : string;
  userpatch_username : option string;
  userpatch_password : option string
}.

(** ** Handlers of the gRPC service *)

Section Service.

Context {J : Jwt} {B : Bcrypt}.

(** [process.env.SECRET_KEY] *)
Variable SECRET_KEY : string.

(** *** Tokens *)

Definition cleanBlacklist (now : Z) (st : Store) : Store :=
  setBlacklist (filter (fun item => now <? expiresAt item)) st.

Definition isBlacklisted (tok : string) (st : Store) : bool :=
  Js.some (fun item => (token item =? tok)%string) (tokenBlacklist st).

Definition verifyToken (tok : string) (now : Z) (st : Store) : Verified :=
  if isBlacklisted tok st then NotValid "Token has been revoked"
  else match jwt_verify tok SECRET_KEY now with
       | Some decoded => Valid decoded
       | None => NotValid "Invalid token"
       end.

(** *** authService *)

(** [register], served alone: the test of the username and, in the callback
    of [bcrypt.hash], the push, with no other call in between.  The two
    turns are [registerTest] and [registerCallback] below. *)
Definition register (uuid salt : string) (now : Z) (req : Credentials)
    (st : Store) : Response AuthPayload * Store :=
  let username := cred_username req in
  if Js.some (fun user => (user_username user =? username)%string) (users st)
  then (failure "Username already exists", st)
  else match bcrypt_hash (cred_password req) salt with
       | None => (failure "Error creating user", st)
       | Some hashedPassword =>
           let newUser := mkUser uuid username hashedPassword in
           let st' := setUsers (Js.push newUser) st in
           let tok := jwt_sign (user_id newUser) (user_username newUser)
                        SECRET_KEY now in
           (ok "User registered successfully"
               (mkAuthPayload tok
                  (mkUserInfo (user_id newUser) (user_username newUser))),
            st')
       end.

Definition login (now : Z) (req : Credentials) (st : Store)
    : Response AuthPayload * Store :=
  match Js.find (fun user => (user_username user =? cred_username req)%string)
          (users st) with
  | None => (failure "Invalid username or password", st)
  | Some user =>
      match bcrypt_compare (cred_password req) (user_password user) with
      | Some true =>
          let tok := jwt_sign (user_id user) (user_username user)
                       SECRET_KEY now in
          (ok "Login successful"
              (mkAuthPayload tok
                 (mkUserInfo (user_id user) (user_username user))),
           st)
      | _ => (failure "Invalid username or password", st)
      end
  end.

(** [!decoded || !decoded.exp]: a missing [exp] and an [exp] of [0] are
    both falsy. *)
Definition decodedExp (tok : string) : option Z :=
  match jwt_decode tok with
  | None => None
  | Some decoded =>
      match claim_exp decoded with
      | None => None
      | Some e => if e =? 0 then None else Some e
      end
  end.

Definition logout (tok : string) (st : Store) : Response unit * Store :=
  match decodedExp tok with
  | None => (failure "Invalid token", st)
  | Some e =>
      match Js.toISOString (e * 1000) with
      | None => (failure "Error during logout", st)
      | Some iso =>
          (ok "Logout successful" tt,
           setBlacklist (Js.push (mkRevoked tok iso)) st)
      end
  end.

(** *** noteService *)

Definition ownedNote (id userId : string) (note : Note) : bool :=
  ((note_id note =? id)%string && (note_userId note =? userId)%string)%bool.

Definition hasTag (tagId : string) (note : Note) : bool :=
  match note_tagIds note with
  | Some l => Js.includes tagId l
  | None => false
  end.

Definition getNotes (req : NoteFilter) (st : Store)
    : Response (list Note) * Store :=
  let filtered :=
    filter (fun note => (note_userId note =? filter_userId req)%string)
      (notes st) in
  let filtered :=
    match filter_archived req with
    | Some archived =>
        filter (fun note => Bool.eqb (note_archived note) archived) filtered
    | None => filtered
    end in
  let filtered :=
    if Js.truthy (filter_tagId req)
    then filter (hasTag (Js.defined (filter_tagId req) "")) filtered
    else filtered in
  (ok "Notes retrieved successfully" filtered, st).

Definition getNote (req : OwnedId) (st : Store) : Response Note * Store :=
  match Js.find (ownedNote (owned_id req) (owned_userId req)) (notes st) with
  | None => (failure "Note not found", st)
  | Some note => (ok "Note retrieved successfully" note, st)
  end.

(** The clock is read twice, for [createdAt] and for [updatedAt]. *)
Definition createNote (uuid : string) (now now' : Z) (req : NewNote)
    (st : Store) : Response Note * Store :=
  let newNote :=
    mkNote uuid
      (Js.orElse (new_title req) "")
      (Js.orElse (new_content req) "")
      (Some (Js.defined (new_tagIds req) []))
      (new_userId req)
      now now'
      false
      (Js.orElse (new_color req) "#ffffff") in
  (ok "Note created successfully" newNote, setNotes (Js.push newNote) st).

Definition patchNote (now : Z) (req : NotePatch) (old : Note) : Note :=
  mkNote (note_id old)
    (Js.defined (patch_title req) (note_title old))
    (Js.defined (patch_content req) (note_content old))
    (match patch_tagIds req with
     | Some l => Some l
     | None => note_tagIds old
     end)
    (note_userId old)
    (note_createdAt old)
    now
    (Js.defined (patch_archived req) (note_archived old))
    (Js.defined (patch_color req) (note_color old)).

Definition updateNote (now : Z) (req : NotePatch) (st : Store)
    : Response Note * Store :=
  match Js.findIndex (ownedNote (patch_id req) (patch_userId req))
          (notes st) with
  | None => (failure "Note not found", st)
  | Some noteIndex =>
      match nth_error (notes st) noteIndex with
      | None => (failure "Note not found", st)
      | Some old =>
          let updatedNote := patchNote now req old in
          (ok "Note updated successfully" updatedNote,
           setNotes (Js.assign noteIndex updatedNote) st)
      end
  end.

Definition deleteNote (req : OwnedId) (st : Store) : Response unit * Store :=
  match Js.findIndex (ownedNote (owned_id req) (owned_userId req))
          (notes st) with
  | None => (failure "Note not found", st)
  | Some noteIndex =>
      (ok "Note deleted successfully" tt, setNotes (Js.splice1 noteIndex) st)
  end.

(** *** Statements of a handler body

    The handlers that touch several arrays do so one statement after the
    other; [trace] lists the store after each statement. *)

Definition Stmt := Store -> Store.

Definition run (body : list Stmt) (st : Store) : Store :=
  fold_left (fun s stmt => stmt s) body st.

Fixpoint trace (body : list Stmt) (st : Store) : list Store :=
  match body with
  | [] => []
  | stmt :: rest => stmt st :: trace rest (stmt st)
  end.

(** *** tagService *)

Definition ownedTag (id userId : string) (tag : Tag) : bool :=
  ((tag_id tag =? id)%string && (tag_userId tag =? userId)%string)%bool.

Definition getTags (userId : string) (st : Store)
    : Response (list Tag) * Store :=
  (ok "Tags retrieved successfully"
      (filter (fun tag => (tag_userId tag =? userId)%string) (tags st)),
   st).

Definition getTag (req : OwnedId) (st : Store) : Response Tag * Store :=
  match Js.find (ownedTag (owned_id req) (owned_userId req)) (tags st) with
  | None => (failure "Tag not found", st)
  | Some tag => (ok "Tag retrieved successfully" tag, st)
  end.

Definition createTag (uuid : string) (now now' : Z) (req : NewTag)
    (st : Store) : Response Tag * Store :=
  let newTag := mkTag uuid (newtag_name req) (newtag_userId req) now now' in
  (ok "Tag created successfully" newTag, setTags (Js.push newTag) st).

Definition updateTag (now : Z) (req : TagPatch) (st : Store)
    : Response Tag * Store :=
  match Js.findIndex (ownedTag (tagpatch_id req) (tagpatch_userId req))
          (tags st) with
  | None => (failure "Tag not found", st)
  | Some tagIndex =>
      match nth_error (tags st) tagIndex with
      | None => (failure "Tag not found", st)
      | Some old =>
          let updatedTag :=
            mkTag (tag_id old)
              (Js.defined (tagpatch_name req) (tag_name old))
              (tag_userId old) (tag_createdAt old) now in
          (ok "Tag updated successfully" updatedTag,
           setTags (Js.assign tagIndex updatedTag) st)
      end
  end.

(** The body of the [notes.forEach] of [deleteTag]: the owner of the note
    is not looked at. *)
Definition stripTag (id : string) (note : Note) : Note :=
  match note_tagIds note with
  | Some l =>
      if Js.includes id l
      then mkNote (note_id note) (note_title note) (note_content note)
             (Some (filter (fun tagId => negb (tagId =? id)%string) l))
             (note_userId note) (note_createdAt note) (note_updatedAt note)
             (note_archived note) (note_color note)
      else note
  | None => note
  end.

Definition deleteTag_body (id : string) (tagIndex : nat) : list Stmt :=
  [ setTags (Js.splice1 tagIndex);
    setNotes (map (stripTag id)) ].

Definition deleteTag (req : OwnedId) (st : Store) : Response unit * Store :=
  match Js.findIndex (ownedTag (owned_id req) (owned_userId req))
          (tags st) with
  | None => (failure "Tag not found", st)
  | Some tagIndex =>
      (ok "Tag deleted successfully" tt,
       run (deleteTag_body (owned_id req) tagIndex) st)
  end.

(** *** userService *)

Definition hasId (id : string) (user : User) : bool :=
  (user_id user =? id)%string.

Definition getUser (id : string) (st : Store) : Response UserInfo * Store :=
  match Js.find (hasId id) (users st) with
  | None => (failure "User not found", st)
  | Some user =>
      (ok "User retrieved successfully"
          (mkUserInfo (user_id user) (user_username user)), st)
  end.

Definition updateUser (salt : string) (req : UserPatch) (st : Store)
    : Response UserInfo * Store :=
  match Js.findIndex (hasId (userpatch_id req)) (users st) with
  | None => (failure "User not found", st)
  | Some userIndex =>
      match nth_error (users st) userIndex with
      | None => (failure "User not found", st)
      | Some old =>
          let username := Js.defined (userpatch_username req) "" in
          if (Js.truthy (userpatch_username req)
              && negb (username =? user_username old)%string
              && Js.some (fun user => (user_username user =? username)%string)
                   (users st))%bool
          then (failure "Username already exists", st)
          else
            let newName :=
              if Js.truthy (userpatch_username req) then username
              else user_username old in
            let newPassword :=
              if Js.truthy (userpatch_password req)
              then bcrypt_hash (Js.defined (userpatch_password req) "") salt
              else Some (user_password old) in
            match newPassword with
            | None => (failure "Error updating password", st)
            | Some pw =>
                let updatedUser := mkUser (user_id old) newName pw in
                (ok "User updated successfully"
                    (mkUserInfo (user_id updatedUser) (user_username updatedUser)),
                 setUsers (Js.assign userIndex updatedUser) st)
            end
      end
  end.

(** The three statements of [deleteUser], in the order of the source: the
    user is spliced out first, then the notes and the tags are filtered. *)
Definition deleteUser_body (id : string) (userIndex : nat) : list Stmt :=
  [ setUsers (Js.splice1 userIndex);
    setNotes (filter (fun note => negb (note_userId note =? id)%string));
    setTags (filter (fun tag => negb (tag_userId tag =? id)%string)) ].

Definition deleteUser (id : string) (st : Store) : Response unit * Store :=
  match Js.findIndex (hasId id) (users st) with
  | None => (failure "User not found", st)
  | Some userIndex =>
      (ok "User deleted successfully" tt, run (deleteUser_body id userIndex) st)
  end.

(** The stores that [deleteUser] goes through, one per statement. *)
Definition deleteUser_trace (id : string) (st : Store) : list Store :=
  match Js.findIndex (hasId id) (users st) with
  | None => []
  | Some userIndex => trace (deleteUser_body id userIndex) st
  end.

(** *** The server

    [server.addService] binds each method of the four services to its
    handler.  A call carries the request message and the metadata of the
    caller (where a bearer token would travel); a handler reads
    [call.request] only. *)

Inductive Rpc :=
| RpcRegister (req : Credentials)
| RpcLogin (req : Credentials)
| RpcLogout (tok : string)
| RpcGetNotes (req : NoteFilter)
| RpcGetNote (req : OwnedId)
| RpcCreateNote (req : NewNote)
| RpcUpdateNote (req : NotePatch)
| RpcDeleteNote (req : OwnedId)
| RpcGetTags (userId : string)
| RpcGetTag (req : OwnedId)
| RpcCreateTag (req : NewTag)
| RpcUpdateTag (req : TagPatch)
| RpcDeleteTag (req : OwnedId)
| RpcGetUser (id : string)
| RpcUpdateUser (req : UserPatch)
| RpcDeleteUser (id : string).

Record Call := mkCall {
  metadata : list (string * string);
  request : Rpc
}.

Inductive Reply :=
| AuthReply (r : Response AuthPayload)
| StatusReply (r : Response unit)
| NotesReply (r : Response (list Note))
| NoteReply (r : Response Note)
| TagsReply (r : Response (list Tag))
| TagReply (r : Response Tag)
| UserReply (r : Response UserInfo).

(** What one call draws from its environment. *)
Record Env := mkEnv {
  env_uuid : string;
  env_salt : string;
  env_now : Z;
  env_now' : Z
}.

Definition reply {A} (wrap : Response A -> Reply) (r : Response A * Store)
    : Reply * Store :=
  (wrap (fst r), snd r).

Definition serve (env : Env) (call : Call) (st : Store) : Reply * Store :=
  match request call with
  | RpcRegister req =>
      reply AuthReply (register (env_uuid env) (env_salt env) (env_now env) req st)
  | RpcLogin req => reply AuthReply (login (env_now env) req st)
  | RpcLogout tok => reply StatusReply (logout tok st)
  | RpcGetNotes req => reply NotesReply (getNotes req st)
  | RpcGetNote req => reply NoteReply (getNote req st)
  | RpcCreateNote req =>
      reply NoteReply (createNote (env_uuid env) (env_now env) (env_now' env) req st)
  | RpcUpdateNote req => reply NoteReply (updateNote (env_now env) req st)
  | RpcDeleteNote req => reply StatusReply (deleteNote req st)
  | RpcGetTags userId => reply TagsReply (getTags userId st)
  | RpcGetTag req => reply TagReply (getTag req st)
  | RpcCreateTag req =>
      reply TagReply (createTag (env_uuid env) (env_now env) (env_now' env) req st)
  | RpcUpdateTag req => reply TagReply (updateTag (env_now env) req st)
  | RpcDeleteTag req => reply StatusReply (deleteTag req st)
  | RpcGetUser id => reply UserReply (getUser id st)
  | RpcUpdateUser req => reply UserReply (updateUser (env_salt env) req st)
  | RpcDeleteUser id => reply StatusReply (deleteUser id st)
  end.

End Service.

Arguments serve {J B} SECRET_KEY env call st.

(** *** Runs of the service

    Between two calls the hourly timer may fire [cleanBlacklist]. *)

Inductive Event :=
| Served (env : Env) (call : Call)
| Cleaned (now : Z).

Definition step {J : Jwt} {B : Bcrypt} (SECRET_KEY : string) (st : Store)
    (ev : Event) : Store :=
  match ev with
  | Served env call => snd (serve SECRET_KEY env call st)
  | Cleaned now => cleanBlacklist now st
  end.

Definition steps {J : Jwt} {B : Bcrypt} (SECRET_KEY : string)
    (evs : list Event) (st : Store) : Store :=
  fold_left (step SECRET_KEY) evs st.

(** Every [cleanBlacklist] of the run fires before the instant [deadline]. *)
Definition cleanedBefore (deadline : Z) (evs : list Event) : bool :=
  forallb (fun ev => match ev with
                     | Served _ _ => true
                     | Cleaned now => now <? deadline
                     end) evs.

(** The user record is gone while a note or a tag of that user is left. *)
Definition orphans (id : string) (st : Store) : bool :=
  (negb (Js.some (hasId id) (users st))
   && (Js.some (fun note => (note_userId note =? id)%string) (notes st)
       || Js.some (fun tag => (tag_userId tag =? id)%string) (tags st)))%bool.

(** ** The REST service of the same repository ([src/rest.js])

    The routes that the claims compare the gRPC handlers with. *)

Module Rest.

Section Routes.

Context {J : Jwt} {B : Bcrypt}.

Variable SECRET_KEY : string.

Inductive Gate :=
| Next (user : Claims)
| Rejected (status : Z) (msg : string).

(** The middleware [authenticateToken]; [bearer] is
    [authHeader && authHeader.split(' ')[1]]. *)
Definition authenticateToken (bearer : option string) (now : Z) (st : Store)
    : Gate :=
  if negb (Js.truthy bearer) then Rejected 401 "Authentication required"
  else
    let tok := Js.defined bearer "" in
    if Js.some (fun item => (token item =? tok)%string) (tokenBlacklist st)
    then Rejected 401 "Token is no longer valid"
    else match jwt_verify tok SECRET_KEY now with
         | Some user => Next user
         | None => Rejected 403 "Invalid or expired token"
         end.

(** A route [app.METHOD(path, authenticateToken, handler)]: the handler runs
    only when the middleware calls [next()]. *)
Definition guarded {A} (handler : Store -> A * Store) (bearer : option string)
    (now : Z) (st : Store) : (Z * string + A) * Store :=
  match authenticateToken bearer now st with
  | Rejected status msg => (inl (status, msg), st)
  | Next _ => let r := handler st in (inr (fst r), snd r)
  end.

(** [POST /register]: the body must carry a username and a password.  The
    REST [saveData] has no [try] of its own: when one of its writes throws,
    after [users.push], the [catch] of the route answers 500 and the user
    stays pushed; [saved] tells whether the writes go through.  [jwt.sign]
    gets a key that is always a string and does not throw.  The two
    timestamps that this route adds to the user record are not kept. *)
Definition registerSaving (saved : bool) (uuid salt : string) (now : Z)
    (username password : option string) (st : Store)
    : (Z * string + AuthPayload) * Store :=
  if (negb (Js.truthy username) || negb (Js.truthy password))%bool
  then (inl (400, "Username and password are required"), st)
  else
    let name := Js.defined username "" in
    if Js.some (fun user => (user_username user =? name)%string) (users st)
    then (inl (400, "Username already exists"), st)
    else match bcrypt_hash (Js.defined password "") salt with
         | None => (inl (500, "Error registering user"), st)
         | Some hashedPassword =>
             let newUser := mkUser uuid name hashedPassword in
             let st' := setUsers (Js.push newUser) st in
             if saved
             then (inr (mkAuthPayload (jwt_sign uuid name SECRET_KEY now)
                          (mkUserInfo uuid name)), st')
             else (inl (500, "Error registering user"), st')
         end.

(** The route when the writes of [saveData] go through. *)
Definition register : string -> string -> Z -> option string -> option string
    -> Store -> (Z * string + AuthPayload) * Store :=
  registerSaving true.

(** The [notes.forEach] of [DELETE /tags/:id]: only the notes of [userId]
    are looked at; [note.tagIds.includes] throws on a note of that user
    without [tagIds], which leaves the loop ([false]). *)
Fixpoint stripOwned (id userId : string) (l : list Note) : list Note * bool :=
  match l with
  | [] => ([], true)
  | note :: rest =>
      if (note_userId note =? userId)%string
      then match note_tagIds note with
           | None => (note :: rest, false)
           | Some _ =>
               let r := stripOwned id userId rest in
               (stripTag id note :: fst r, snd r)
           end
      else let r := stripOwned id userId rest in (note :: fst r, snd r)
  end.

(** [DELETE /tags/:id].  After the loop the tag is spliced out and
    [saveData] runs; when one of its writes throws, the [catch] of the route
    answers 500 with the notes stripped and the tag gone; [saved] tells
    whether the writes go through. *)
Definition deleteTagSaving (saved : bool) (req : OwnedId) (st : Store)
    : (Z * string + string) * Store :=
  match Js.findIndex (ownedTag (owned_id req) (owned_userId req)) (tags st) with
  | None => (inl (404, "Tag not found"), st)
  | Some tagIndex =>
      let r := stripOwned (owned_id req) (owned_userId req) (notes st) in
      let st1 := setNotes (fun _ => fst r) st in
      if snd r
      then
        let st2 := setTags (Js.splice1 tagIndex) st1 in
        if saved then (inr "Tag deleted successfully", st2)
        else (inl (500, "Error deleting tag"), st2)
      else (inl (500, "Error deleting tag"), st1)
  end.

(** The route when the writes of [saveData] go through. *)
Definition deleteTag : OwnedId -> Store -> (Z * string + string) * Store :=
  deleteTagSaving true.

(** [DELETE /users/:id]: the notes and the tags go first, the user last. *)
Definition deleteUser_body (id : string) (userIndex : nat) : list Stmt :=
  [ setNotes (filter (fun note => negb (note_userId note =? id)%string));
    setTags (filter (fun tag => negb (tag_userId tag =? id)%string));
    setUsers (Js.splice1 userIndex) ].

Definition deleteUser_trace (id : string) (st : Store) : list Store :=
  match Js.findIndex (hasId id) (users st) with
  | None => []
  | Some userIndex => trace (deleteUser_body id userIndex) st
  end.

End Routes.

End Rest.

(** ** Reference libraries

    Closed instances of the two libraries, for running the handlers on
    concrete calls. *)

(** A token that the JWT library can read: its claims and the key that
    signed it. *)
Record Minted := mkMinted {
  minted_token : string;
  minted_claims : Claims;
  minted_key : string
}.

Definition lookupMinted (tbl : list Minted) (tok : string) : option Minted :=
  List.find (fun m => (minted_token m =? tok)%string) tbl.

Definition notExpired (now : Z) (claims : Claims) : bool :=
  match claim_exp claims with
  | Some e => now / 1000 <? e
  | None => true
  end.

(** A JWT library that knows the tokens of [tbl]: a token verifies when it
    was signed with the key asked for and has not expired; any other string
    is malformed. *)
Definition tableJwt (tbl : list Minted) : Jwt := {|
  jwt_sign := fun id username key now =>
    (id ++ "." ++ username ++ "." ++ key)%string;
  jwt_verify := fun tok key now =>
    match lookupMinted tbl tok with
    | Some m =>
        if ((minted_key m =? key)%string && notExpired now (minted_claims m))%bool
        then Some (minted_claims m) else None
    | None => None
    end;
  jwt_decode := fun tok => option_map minted_claims (lookupMinted tbl tok)
|}.

(** A hasher that keeps the password readable behind a fixed prefix. *)
Definition plainBcrypt : Bcrypt := {|
  bcrypt_hash := fun password _ => Some ("$2b$10$" ++ password)%string;
  bcrypt_compare := fun password h => Some (h =? "$2b$10$" ++ password)%string
|}.

(** The JWT library at a moment when two tokens with the claims of alice
    are around: one signed with the key of the service, one signed with
    another key. *)
Definition aliceClaims : Claims :=
  mkClaims "u1" "alice" (Some 1700000000) (Some 1700086400).

Definition sampleJwt : Jwt :=
  tableJwt [ mkMinted "h.p.good" aliceClaims "server-key";
             mkMinted "h.p.forged" aliceClaims "attacker-key" ].

(** Two users, alice ([u1]) and bob ([u2]); each has a note that holds the
    tag id [t1], and [t1] is a tag of alice. *)
Definition aliceNote : Note :=
  mkNote "n1" "Groceries" "milk" (Some ["t1"%string]) "u1" 1000 1000 false "#ffffff".

Definition bobNote : Note :=
  mkNote "n2" "Ideas" "rocket" (Some ["t1"%string]) "u2" 1100 1100 false "#ffffff".

Definition aliceTag : Tag := mkTag "t1" "home" "u1" 900 900.

Definition sampleStore : Store :=
  mkStore [ mkUser "u1" "alice" "$2b$10$pw1"; mkUser "u2" "bob" "$2b$10$pw2" ]
    [ aliceNote; bobNote ] [ aliceTag ] [].

Definition sampleEnv : Env := mkEnv "id-9" "salt" 1700000100000 1700000100000.

(** ** Replies *)

(** The [success] flag of a reply, whatever its message type. *)
Definition replySuccess (r : Reply) : bool :=
  match r with
  | AuthReply x => success x
  | StatusReply x => success x
  | NotesReply x => success x
  | NoteReply x => success x
  | TagsReply x => success x
  | TagReply x => success x
  | UserReply x => success x
  end.

(** ** The data files

    The four arrays live in [users.json], [notes.json], [tags.json] and
    [blacklist.json].  A file is absent, or [JSON.parse] throws on it, or it
    holds an array; the array that [JSON.stringify] wrote is the array that
    [JSON.parse] reads. *)

Inductive File (A : Type) :=
| Missing
| Corrupt
| Content (a : A).
Arguments Missing {A}.
Arguments Corrupt {A}.
Arguments Content {A}.

Record Disk := mkDisk {
  usersFile : File (list User);
  notesFile : File (list Note);
  tagsFile : File (list Tag);
  blacklistFile : File (list Revoked)
}.

(** The start of the module: the arrays begin empty, the files are read in
    order inside one [try], and the first [JSON.parse] that throws ends the
    reading. *)
Definition loadData (d : Disk) : Store :=
  match usersFile d with
  | Corrupt => emptyStore
  | fu =>
      let us := match fu with Content a => a | _ => [] end in
      match notesFile d with
      | Corrupt => mkStore us [] [] []
      | fn =>
          let ns := match fn with Content a => a | _ => [] end in
          match tagsFile d with
          | Corrupt => mkStore us ns [] []
          | ft =>
              let ts := match ft with Content a => a | _ => [] end in
              match blacklistFile d with
              | Corrupt => mkStore us ns ts []
              | fb =>
                  mkStore us ns ts (match fb with Content a => a | _ => [] end)
              end
          end
      end
  end.

(** The array of a file, for [loadData]: empty unless the file holds one. *)
Definition contents {A} (f : File (list A)) : list A :=
  match f with
  | Content a => a
  | _ => []
  end.

(** ** The two turns of [register]

    [register] tests the username and hands the password to [bcrypt.hash];
    the user is pushed in the callback, which runs in a later turn of the
    event loop.  Other calls can run between the two. *)

(** The first turn: [Some] is the refusal, [None] means that the hashing
    has been started. *)
Definition registerTest (req : Credentials) (st : Store)
    : option (Response AuthPayload) :=
  if Js.some (fun user => (user_username user =? cred_username req)%string)
       (users st)
  then Some (failure "Username already exists")
  else None.

(** The second turn, on the store as it is by then. *)
Definition registerCallback {J : Jwt} {B : Bcrypt} (SECRET_KEY uuid salt : string)
    (now : Z) (req : Credentials) (st : Store) : Response AuthPayload * Store :=
  match bcrypt_hash (cred_password req) salt with
  | None => (failure "Error creating user", st)
  | Some hashedPassword =>
      let newUser := mkUser uuid (cred_username req) hashedPassword in
      (ok "User registered successfully"
          (mkAuthPayload
             (jwt_sign (user_id newUser) (user_username newUser) SECRET_KEY now)
             (mkUserInfo (user_id newUser) (user_username newUser))),
       setUsers (Js.push newUser) st)
  end.

(** ** The decoder of the requests

    The proto file is loaded with [defaults: true] ([index.js], lines 96 to
    102): a decoded message has every field set, and a proto3 field that the
    caller left out arrives with the default of its type, the empty string,
    [false] or the empty array.  [decodeNotePatch] takes the
    [UpdateNoteRequest] as the caller built it, where a field left out is
    [undefined], to the [call.request] that the handler reads. *)
Definition decodeNotePatch (sent : NotePatch) : NotePatch :=
  mkNotePatch (patch_id sent)
    (Some (Js.defined (patch_title sent) ""))
    (Some (Js.defined (patch_content sent) ""))
    (Some (Js.defined (patch_tagIds sent) []))
    (patch_userId sent)
    (Some (Js.defined (patch_archived sent) false))
    (Some (Js.defined (patch_color sent) "")).

(** [UpdateNote] as the server runs it on a request of a caller. *)
Definition servedUpdateNote (now : Z) (sent : NotePatch) (st : Store)
    : Response Note * Store :=
  updateNote now (decodeNotePatch sent) st.

(** The JWT library of [sampleJwt] with one more token around: its claims
    carry an [exp] of 0, the epoch. *)
Definition epochClaims : Claims := mkClaims "u1" "alice" (Some 0) (Some 0).

Definition epochJwt : Jwt :=
  tableJwt [ mkMinted "h.p.good" aliceClaims "server-key";
             mkMinted "h.p.forged" aliceClaims "attacker-key";
             mkMinted "h.p.epoch" epochClaims "server-key" ].

(** * Properties *)

(** ** Arrays *)

Lemma findIndex_nth {A} (p : A -> bool) (l : list A) (i : nat) :
  Js.findIndex p l = Some i ->
  exists x, nth_error l i = Some x /\ p x = true /\ Js.find p l = Some x.
Proof.
  revert i. induction l as [|a l IH]; simpl; intros i Hi.
  - discriminate.
  - destruct (p a) eqn:Ha.
    + inversion Hi; subst. exists a. simpl. auto.
    + destruct (Js.findIndex p l) as [j|] eqn:Hj; simpl in Hi; inversion Hi; subst.
      destruct (IH j eq_refl) as (x & Hx & Hp & Hf).
      exists x. simpl. auto.
Qed.

Lemma find_findIndex {A} (p : A -> bool) (l : list A) (x : A) :
  Js.find p l = Some x ->
  exists i, Js.findIndex p l = Some i /\ nth_error l i = Some x.
Proof.
  induction l as [|a l IH]; simpl; intros Hx.
  - discriminate.
  - destruct (p a) eqn:Ha.
    + inversion Hx; subst. exists O. auto.
    + destruct (IH Hx) as (i & Hi & Hn).
      exists (S i). rewrite Hi. auto.
Qed.

Lemma findIndex_none {A} (p : A -> bool) (l : list A) :
  Js.findIndex p l = None <-> Js.some p l = false.
Proof.
  induction l as [|a l IH]; simpl.
  - tauto.
  - destruct (p a); simpl.
    + split; discriminate.
    + destruct (Js.findIndex p l); simpl in *.
      * split; intros H; [discriminate | apply IH in H; discriminate].
      * split; intros _; [apply IH|]; reflexivity.
Qed.

Lemma assign_same {A} (i : nat) (v x : A) (l : list A) :
  nth_error l i = Some x -> nth_error (Js.assign i v l) i = Some v.
Proof.
  revert i. induction l as [|a l IH]; intros [|i]; simpl; intros H;
    try discriminate; auto.
Qed.

Lemma assign_other {A} (i j : nat) (v : A) (l : list A) :
  j <> i -> nth_error (Js.assign i v l) j = nth_error l j.
Proof.
  revert i j. induction l as [|a l IH]; intros [|i] [|j] H; simpl; auto.
  contradiction.
Qed.

Lemma assign_length {A} (i : nat) (v : A) (l : list A) :
  length (Js.assign i v l) = length l.
Proof.
  revert i. induction l as [|a l IH]; intros [|i]; simpl; auto.
Qed.

Lemma find_assign {A} (p : A -> bool) (i : nat) (v : A) (l : list A) :
  Js.findIndex p l = Some i -> p v = true ->
  Js.find p (Js.assign i v l) = Some v.
Proof.
  revert i. induction l as [|a l IH]; simpl; intros i Hi Hv.
  - discriminate.
  - destruct (p a) eqn:Ha.
    + inversion Hi; subst. simpl. rewrite Hv. reflexivity.
    + destruct (Js.findIndex p l) as [j|]; simpl in Hi; inversion Hi; subst.
      simpl. rewrite Ha. apply IH; auto.
Qed.

Lemma some_push {A} (p : A -> bool) (v : A) (l : list A) :
  Js.some p (Js.push v l) = (Js.some p l || p v)%bool.
Proof.
  unfold Js.some, Js.push. rewrite existsb_app. simpl.
  rewrite orb_false_r. reflexivity.
Qed.

Lemma find_push_fresh {A} (p : A -> bool) (v : A) (l : list A) :
  Js.some p l = false -> p v = true -> Js.find p (Js.push v l) = Some v.
Proof.
  unfold Js.some, Js.find, Js.push.
  induction l as [|a l IH]; simpl; intros Hl Hv.
  - rewrite Hv. reflexivity.
  - apply orb_false_iff in Hl. destruct Hl as [Ha Hl].
    rewrite Ha. apply IH; auto.
Qed.

(** ** The revocation list *)

(** C8. [cleanBlacklist] run at [now] keeps exactly the entries whose
    [expiresAt] is later than [now]: what is left expires after [now], no
    entry that expires after [now] is dropped, every entry that expires at
    [now] or before is dropped, nothing is added, and the other arrays are
    not touched. *)
Theorem cleanBlacklist_purges_exactly_expired (now : Z) (st : Store) :
  let st' := cleanBlacklist now st in
  (forall item, In item (tokenBlacklist st') -> now < expiresAt item) /\
  (forall item, In item (tokenBlacklist st) -> now < expiresAt item ->
                In item (tokenBlacklist st')) /\
  (forall item, In item (tokenBlacklist st) -> expiresAt item <= now ->
                ~ In item (tokenBlacklist st')) /\
  (forall item, In item (tokenBlacklist st') -> In item (tokenBlacklist st)) /\
  (forall item, now < expiresAt item ->
                count_occ Revoked_eq_dec (tokenBlacklist st') item
                = count_occ Revoked_eq_dec (tokenBlacklist st) item) /\
  users st' = users st /\ notes st' = notes st /\ tags st' = tags st.
Proof.
  simpl. repeat split.
  - intros item H. apply filter_In in H. destruct H as [_ H].
    apply Z.ltb_lt in H. exact H.
  - intros item H Hlt. apply filter_In. split; auto. apply Z.ltb_lt. exact Hlt.
  - intros item _ Hle H. apply filter_In in H. destruct H as [_ H].
    apply Z.ltb_lt in H. lia.
  - intros item H. apply filter_In in H. tauto.
  - intros item Hlt. induction (tokenBlacklist st) as [|a l IH]; simpl; auto.
    destruct (now <? expiresAt a) eqn:Ha; simpl.
    + rewrite IH. reflexivity.
    + rewrite IH. match goal with |- context [if ?d then _ else _] => destruct d end; auto.
      subst a. apply Z.ltb_ge in Ha. lia.
Qed.

(** ** Notes and tags *)

(** C10. [createNote] and [createTag] never look at [users]: in every store,
    whether or not a user with the id of the request exists, the call
    succeeds and pushes an entity that carries that id as its [userId]; the
    other arrays are left as they were. *)
Theorem create_has_no_owner_check (uuid : string) (now now' : Z) (st : Store)
    (n : NewNote) (t : NewTag) :
  (exists note,
      createNote uuid now now' n st
      = (ok "Note created successfully" note,
         mkStore (users st) (notes st ++ [note]) (tags st) (tokenBlacklist st))
      /\ note_id note = uuid /\ note_userId note = new_userId n) /\
  (exists tag,
      createTag uuid now now' t st
      = (ok "Tag created successfully" tag,
         mkStore (users st) (notes st) (tags st ++ [tag]) (tokenBlacklist st))
      /\ tag_id tag = uuid /\ tag_userId tag = newtag_userId t).
Proof.
  split.
  - eexists. unfold createNote, setNotes, Js.push. simpl.
    split; [reflexivity | split; reflexivity].
  - eexists. unfold createTag, setTags, Js.push. simpl.
    split; [reflexivity | split; reflexivity].
Qed.

(** Creation for an owner that [users] does not hold: the store has no user
    at all. *)
Example create_for_unknown_owner :
  Js.some (hasId "ghost") (users emptyStore) = false /\
  map note_userId
    (notes (snd (createNote "n-1" 10 10
                   (mkNewNote (Some "t") None None "ghost" None) emptyStore)))
  = ["ghost"%string] /\
  map tag_userId
    (tags (snd (createTag "t-1" 10 10 (mkNewTag "work" "ghost") emptyStore)))
  = ["ghost"%string].
Proof. repeat split. Qed.

(** The handler [updateNote] alone, on a note that exists under the id and
    the owner of the request: a field that the request supplies takes the supplied value, a
    field that it leaves [undefined] keeps its value, [updatedAt] becomes the
    reading of the clock, and [id], [userId] and [createdAt] stay.  The note
    replaces the old one at its index; no other note and no other array
    changes. *)
Theorem updateNote_changes_supplied_fields_only (now : Z) (req : NotePatch)
    (st : Store) (old : Note) :
  Js.find (ownedNote (patch_id req) (patch_userId req)) (notes st) = Some old ->
  exists updated idx,
    fst (updateNote now req st) = ok "Note updated successfully" updated /\
    let st' := snd (updateNote now req st) in
    note_title updated
      = match patch_title req with Some v => v | None => note_title old end /\
    note_content updated
      = match patch_content req with Some v => v | None => note_content old end /\
    note_tagIds updated
      = match patch_tagIds req with Some v => Some v | None => note_tagIds old end /\
    note_archived updated
      = match patch_archived req with Some v => v | None => note_archived old end /\
    note_color updated
      = match patch_color req with Some v => v | None => note_color old end /\
    note_updatedAt updated = now /\
    note_id updated = note_id old /\
    note_userId updated = note_userId old /\
    note_createdAt updated = note_createdAt old /\
    nth_error (notes st) idx = Some old /\
    nth_error (notes st') idx = Some updated /\
    (forall j, j <> idx -> nth_error (notes st') j = nth_error (notes st) j) /\
    length (notes st') = length (notes st) /\
    Js.find (ownedNote (patch_id req) (patch_userId req)) (notes st')
      = Some updated /\
    users st' = users st /\ tags st' = tags st /\
    tokenBlacklist st' = tokenBlacklist st.
Proof.
  intros Hold.
  destruct (find_findIndex _ _ _ Hold) as (idx & Hidx & Hnth).
  destruct (findIndex_nth _ _ _ Hidx) as (x & Hx & Hp & _).
  assert (x = old) by congruence. subst x.
  exists (patchNote now req old), idx.
  unfold updateNote. rewrite Hidx, Hnth. simpl.
  repeat split; try reflexivity; try assumption.
  - eapply assign_same; eassumption.
  - intros j Hj. apply assign_other; assumption.
  - apply assign_length.
  - apply find_assign; auto.
Qed.

Lemma updateNote_changes_supplied_fields_only_witness :
  exists updated,
    fst (updateNote 2000
           (mkNotePatch "n1" (Some "Shopping") None None "u1" None None)
           (mkStore [] [mkNote "n1" "Groceries" "milk" (Some ["t1"%string]) "u1"
                          1000 1000 false "#ffffff"] [] []))
    = ok "Note updated successfully" updated /\
    note_title updated = "Shopping"%string /\
    note_content updated = "milk"%string /\
    note_updatedAt updated = 2000 /\
    note_createdAt updated = 1000.
Proof.
  destruct (updateNote_changes_supplied_fields_only 2000
              (mkNotePatch "n1" (Some "Shopping") None None "u1" None None)
              (mkStore [] [mkNote "n1" "Groceries" "milk" (Some ["t1"%string]) "u1"
                             1000 1000 false "#ffffff"] [] [])
              (mkNote "n1" "Groceries" "milk" (Some ["t1"%string]) "u1"
                 1000 1000 false "#ffffff")
              eq_refl)
    as (updated & idx & Hresp & Htitle & Hcontent & _ & _ & _ & Hupd & _ & _ & Hcre & _).
  exists updated. simpl in *. repeat split; assumption.
Defined.

(** What the decoder makes of a field that the caller left out: the handler
    finds it defined and writes the default of its type over the value of
    the note. *)
Lemma servedUpdateNote_writes_defaults (now : Z) (sent : NotePatch)
    (st : Store) (old : Note) :
  Js.find (ownedNote (patch_id sent) (patch_userId sent)) (notes st) = Some old ->
  exists updated,
    fst (servedUpdateNote now sent st) = ok "Note updated successfully" updated /\
    note_title updated
      = match patch_title sent with Some v => v | None => ""%string end /\
    note_content updated
      = match patch_content sent with Some v => v | None => ""%string end /\
    note_tagIds updated
      = Some (match patch_tagIds sent with Some v => v | None => [] end) /\
    note_archived updated
      = match patch_archived sent with Some v => v | None => false end /\
    note_color updated
      = match patch_color sent with Some v => v | None => ""%string end.
Proof.
  intros Hold. unfold servedUpdateNote.
  destruct (updateNote_changes_supplied_fields_only now
              (decodeNotePatch sent) st old Hold)
    as (updated & idx & Hresp & Ht & Hc & Hg & Ha & Hco & _).
  exists updated. simpl in *. repeat split; assumption.
Qed.

(** C9 on the gRPC service: a caller updates the title of the note [n1] of
    alice and leaves every other field out.  The note that the server
    answers and stores has the new title, and its content, its tag ids and
    its color are reset to the empty defaults instead of being kept: the
    handler keeps a field only when it is [undefined], and the decoder never
    delivers one. *)
Theorem servedUpdateNote_resets_fields_left_out :
  let sent := mkNotePatch "n1" (Some "Shopping") None None "u1" None None in
  Js.find (ownedNote "n1" "u1") (notes sampleStore) = Some aliceNote /\
  note_content aliceNote = "milk"%string /\
  note_tagIds aliceNote = Some ["t1"%string] /\
  note_color aliceNote = "#ffffff"%string /\
  servedUpdateNote 2000 sent sampleStore
  = (ok "Note updated successfully"
        (mkNote "n1" "Shopping" "" (Some []) "u1" 1000 2000 false ""),
     mkStore (users sampleStore)
       [ mkNote "n1" "Shopping" "" (Some []) "u1" 1000 2000 false ""; bobNote ]
       (tags sampleStore) (tokenBlacklist sampleStore)).
Proof. repeat split. Qed.

(** ** Registration and login *)

Lemma some_username_false (name : string) (l : list User) :
  Js.some (fun user => (user_username user =? name)%string) l = false <->
  (forall u, In u l -> user_username u <> name).
Proof.
  unfold Js.some. split.
  - intros H u Hu Heq.
    assert (existsb (fun user => (user_username user =? name)%string) l = true).
    { apply existsb_exists. exists u. split; auto. apply String.eqb_eq; auto. }
    congruence.
  - intros H. destruct (existsb _ l) eqn:E; auto.
    apply existsb_exists in E. destruct E as (u & Hu & Heq).
    apply String.eqb_eq in Heq. exfalso. eapply H; eauto.
Qed.


(** [register] and a username that is not empty: [register] succeeds
    exactly when no user of the store has that very
    username and bcrypt hashes the password; a username that a user of the
    store already has is answered by ['Username already exists'] with the
    store unchanged; on success the new user is pushed with the hash, and the
    user of the response is made of the id and the username only. *)
Theorem register_succeeds_iff_fresh_and_hashed {J : Jwt} {B : Bcrypt}
    (SECRET_KEY uuid salt : string) (now : Z) (req : Credentials) (st : Store) :
  cred_username req <> ""%string ->
  let r := register SECRET_KEY uuid salt now req st in
  (success (fst r) = true <->
     (forall u, In u (users st) -> user_username u <> cred_username req) /\
     bcrypt_hash (cred_password req) salt <> None) /\
  ((exists u, In u (users st) /\ user_username u = cred_username req) ->
     r = (failure "Username already exists", st)) /\
  (success (fst r) = true ->
     exists h,
       bcrypt_hash (cred_password req) salt = Some h /\
       payload (fst r)
       = Some (mkAuthPayload
                 (jwt_sign uuid (cred_username req) SECRET_KEY now)
                 (mkUserInfo uuid (cred_username req))) /\
       users (snd r) = (users st ++ [mkUser uuid (cred_username req) h])%list /\
       notes (snd r) = notes st /\ tags (snd r) = tags st /\
       tokenBlacklist (snd r) = tokenBlacklist st).
Proof.
  intros _. unfold register.
  destruct (Js.some _ (users st)) eqn:Hdup.
  - simpl. split; [split|split].
    + discriminate.
    + intros [Hfresh _]. apply some_username_false in Hfresh. congruence.
    + reflexivity.
    + discriminate.
  - pose proof (proj1 (some_username_false _ _) Hdup) as Hfresh.
    destruct (bcrypt_hash (cred_password req) salt) as [h|] eqn:Hh; simpl.
    + split; [split|split].
      * intros _. split; [exact Hfresh | discriminate].
      * reflexivity.
      * intros (u & Hu & Heq). exfalso. eapply Hfresh; eauto.
      * intros _. exists h. repeat split.
    + split; [split|split].
      * discriminate.
      * intros [_ Hn]. congruence.
      * intros (u & Hu & Heq). exfalso. eapply Hfresh; eauto.
      * discriminate.
Qed.

Lemma register_succeeds_iff_fresh_and_hashed_witness :
  success (fst (register (J := tableJwt []) (B := plainBcrypt) "server-key"
                  "id-1" "salt" 0 (mkCredentials "alice" "pw1") emptyStore))
  = true.
Proof.
  apply (proj1 (register_succeeds_iff_fresh_and_hashed
                  (J := tableJwt []) (B := plainBcrypt) "server-key"
                  "id-1" "salt" 0 (mkCredentials "alice" "pw1") emptyStore
                  ltac:(discriminate))).
  split.
  - intros u Hu. destruct Hu.
  - discriminate.
Defined.

(** C5 on the gRPC service: [register] has no test of the username but the
    look-up in [users].  Whenever bcrypt hashes the password and no user has
    the empty username yet, the empty username is registered: the call
    succeeds and pushes a user whose username is the empty string.  The REST
    [POST /register] of the same repository refuses that request with 400
    and changes nothing. *)
Theorem register_accepts_empty_username {J : Jwt} {B : Bcrypt}
    (SECRET_KEY uuid salt : string) (now : Z) (password h : string)
    (st : Store) :
  bcrypt_hash password salt = Some h ->
  (forall u, In u (users st) -> user_username u <> ""%string) ->
  register SECRET_KEY uuid salt now (mkCredentials "" password) st
  = (ok "User registered successfully"
        (mkAuthPayload (jwt_sign uuid "" SECRET_KEY now) (mkUserInfo uuid "")),
     mkStore (users st ++ [mkUser uuid "" h]) (notes st) (tags st)
       (tokenBlacklist st)) /\
  Rest.register SECRET_KEY uuid salt now (Some ""%string) (Some password) st
  = (inl (400, "Username and password are required"), st).
Proof.
  intros Hh Hfresh. split; [|reflexivity].
  unfold register. simpl.
  rewrite (proj2 (some_username_false ""%string (users st)) Hfresh).
  rewrite Hh. reflexivity.
Qed.

Lemma register_accepts_empty_username_witness :
  success (fst (register (J := sampleJwt) (B := plainBcrypt) "server-key"
                  "id-1" "salt" 0 (mkCredentials "" "pw1") sampleStore))
  = true /\
  map user_username
    (users (snd (register (J := sampleJwt) (B := plainBcrypt) "server-key"
                   "id-1" "salt" 0 (mkCredentials "" "pw1") sampleStore)))
  = ["alice"; "bob"; ""]%string.
Proof.
  destruct (register_accepts_empty_username (J := sampleJwt) (B := plainBcrypt)
              "server-key" "id-1" "salt" 0 "pw1" "$2b$10$pw1" sampleStore
              eq_refl) as [H _].
  - intros u Hu. simpl in Hu.
    destruct Hu as [<- | [<- | []]]; discriminate.
  - rewrite H. split; reflexivity.
Defined.



(** ** Revocation and verification *)

Ltac break_match :=
  repeat match goal with
         | |- context [match ?x with _ => _ end] => destruct x eqn:?; simpl
         end.

(** No handler removes an entry of the revocation list. *)
Lemma serve_keeps_blacklist {J : Jwt} {B : Bcrypt} (SECRET_KEY : string)
    (env : Env) (call : Call) (st : Store) :
  exists pushed,
    tokenBlacklist (snd (serve SECRET_KEY env call st))
    = (tokenBlacklist st ++ pushed)%list.
Proof.
  destruct call as [md [req|req|tok|req|req|req|req|req|uid|req|req|req|req|id|req|id]];
    unfold serve, reply; simpl;
    unfold register, login, logout, getNotes, getNote, createNote, updateNote,
      deleteNote, getTags, getTag, createTag, updateTag, deleteTag, getUser,
      updateUser, deleteUser;
    break_match;
    solve [ exists []; rewrite app_nil_r; reflexivity
          | eexists; unfold Js.push; reflexivity ].
Qed.

Lemma steps_keep_revoked {J : Jwt} {B : Bcrypt} (SECRET_KEY : string)
    (item : Revoked) (evs : list Event) (st : Store) :
  In item (tokenBlacklist st) ->
  cleanedBefore (expiresAt item) evs = true ->
  In item (tokenBlacklist (steps SECRET_KEY evs st)).
Proof.
  revert st. induction evs as [|ev evs IH]; simpl; intros st Hin Hc.
  - exact Hin.
  - apply andb_prop in Hc. destruct Hc as [Hev Hc].
    apply IH; auto.
    destruct ev as [env call|now]; simpl.
    + destruct (serve_keeps_blacklist SECRET_KEY env call st) as [pushed Hp].
      rewrite Hp. apply in_or_app. left. exact Hin.
    + apply filter_In. split; auto.
Qed.

Lemma isBlacklisted_In (tok : string) (st : Store) :
  isBlacklisted tok st = true <->
  exists item, In item (tokenBlacklist st) /\ token item = tok.
Proof.
  unfold isBlacklisted, Js.some. rewrite existsb_exists.
  split; intros (item & Hin & H); exists item; split; auto;
    apply String.eqb_eq; auto.
Qed.

(** C7, as the handlers have it.  [logout] decodes the token and never
    verifies it.  When the decoded
    claims carry an [exp] that is not falsy and names a valid date, [logout]
    succeeds and pushes the token with that date; from then on [verifyToken]
    answers ['Token has been revoked'] at every instant, before the expiry as
    well as after it, whatever calls are served in between and as long as
    [cleanBlacklist] has not fired at or after the expiry.  A token that
    does not decode, or whose claims have no [exp] (or a falsy one), is
    turned down with ['Invalid token'], and an [exp] outside the range of
    dates with ['Error during logout']; the store is then left as it was. *)
Theorem logout_then_verify_is_revoked {J : Jwt} {B : Bcrypt}
    (SECRET_KEY tok : string) (st : Store) :
  (forall decoded e,
      jwt_decode tok = Some decoded -> claim_exp decoded = Some e ->
      e <> 0 -> Z.abs (e * 1000) <= Js.maxDate ->
      logout tok st
      = (ok "Logout successful" tt,
         mkStore (users st) (notes st) (tags st)
           (tokenBlacklist st ++ [mkRevoked tok (e * 1000)])) /\
      forall evs now,
        cleanedBefore (e * 1000) evs = true ->
        verifyToken SECRET_KEY tok now
          (steps SECRET_KEY evs (snd (logout tok st)))
        = NotValid "Token has been revoked") /\
  (jwt_decode tok = None \/
   (exists decoded, jwt_decode tok = Some decoded /\
                    (claim_exp decoded = None \/ claim_exp decoded = Some 0)) ->
   logout tok st = (failure "Invalid token", st)) /\
  (forall decoded e,
      jwt_decode tok = Some decoded -> claim_exp decoded = Some e ->
      e <> 0 -> Js.maxDate < Z.abs (e * 1000) ->
      logout tok st = (failure "Error during logout", st)).
Proof.
  split; [|split].
  - intros decoded e Hd He Hnz Hrange.
    assert (Hlogout :
              logout tok st
              = (ok "Logout successful" tt,
                 mkStore (users st) (notes st) (tags st)
                   (tokenBlacklist st ++ [mkRevoked tok (e * 1000)]))).
    { unfold logout, decodedExp. rewrite Hd, He.
      destruct (e =? 0) eqn:E; [apply Z.eqb_eq in E; contradiction|].
      unfold Js.toISOString.
      destruct (Z.abs (e * 1000) <=? Js.maxDate) eqn:R;
        [reflexivity | apply Z.leb_gt in R; lia]. }
    split; [exact Hlogout|].
    intros evs now Hc. rewrite Hlogout. simpl.
    unfold verifyToken.
    assert (Hb : isBlacklisted tok
                   (steps SECRET_KEY evs
                      (mkStore (users st) (notes st) (tags st)
                         (tokenBlacklist st ++ [mkRevoked tok (e * 1000)])))
                 = true).
    { apply isBlacklisted_In. exists (mkRevoked tok (e * 1000)).
      split; [|reflexivity].
      apply steps_keep_revoked; [|exact Hc].
      simpl. apply in_or_app. right. left. reflexivity. }
    rewrite Hb. reflexivity.
  - intros [Hd | (decoded & Hd & [He | He])];
      unfold logout, decodedExp; rewrite Hd; try rewrite He; reflexivity.
  - intros decoded e Hd He Hnz Hrange.
    unfold logout, decodedExp. rewrite Hd, He.
    destruct (e =? 0) eqn:E; [apply Z.eqb_eq in E; contradiction|].
    unfold Js.toISOString.
    destruct (Z.abs (e * 1000) <=? Js.maxDate) eqn:R;
      [apply Z.leb_le in R; lia | reflexivity].
Qed.

Lemma logout_then_verify_is_revoked_witness :
  jwt_verify (Jwt := sampleJwt) "h.p.forged" "server-key" 1700000100000 = None /\
  verifyToken (J := sampleJwt) "server-key" "h.p.forged" 1700000100000
    (snd (logout (J := sampleJwt) "h.p.forged" sampleStore))
  = NotValid "Token has been revoked".
Proof.
  split; [reflexivity|].
  destruct (logout_then_verify_is_revoked (J := sampleJwt) (B := plainBcrypt)
              "server-key" "h.p.forged" sampleStore) as [H _].
  destruct (H aliceClaims 1700086400 eq_refl eq_refl
              ltac:(discriminate) ltac:(vm_compute; discriminate)) as [_ Hv].
  exact (Hv [] 1700000100000 eq_refl).
Defined.

(** C7 as stated fails twice.  A token whose claims carry the expiry 0 has
    an expiry that decodes, and [logout] turns it down.  And the forged token
    that [logout] has revoked is answered ['Invalid token'], not
    ['Token has been revoked'], once [cleanBlacklist] has fired at its
    expiry. *)
Lemma logout_claim_fails_at_epoch_and_after_cleanup :
  (jwt_decode (Jwt := epochJwt) "h.p.epoch" = Some epochClaims /\
   claim_exp epochClaims = Some 0 /\
   logout (J := epochJwt) "h.p.epoch" sampleStore
   = (failure "Invalid token", sampleStore)) /\
  (fst (logout (J := epochJwt) "h.p.forged" sampleStore)
   = ok "Logout successful" tt /\
   verifyToken (J := epochJwt) "server-key" "h.p.forged" 1700086400000
     (snd (logout (J := epochJwt) "h.p.forged" sampleStore))
   = NotValid "Token has been revoked" /\
   verifyToken (J := epochJwt) "server-key" "h.p.forged" 1700086400000
     (steps (J := epochJwt) (B := plainBcrypt) "server-key"
        [Cleaned 1700086400000]
        (snd (logout (J := epochJwt) "h.p.forged" sampleStore)))
   = NotValid "Invalid token").
Proof. repeat split. Qed.

(** C4, as the handler has it.  [verifyToken] looks the token up in the
    revocation list first and only then has the signature and the expiry
    checked, both by the one call of [jwt.verify].  For a token that
    [jwt.verify] turns down, the answer is ['Token has been revoked'] when
    the list holds the token and ['Invalid token'] when it does not; so the
    answer is the same in any two stores whose lists agree on holding that
    token. *)
Theorem verifyToken_checks_revocation_first {J : Jwt} (SECRET_KEY tok : string)
    (now : Z) (st : Store) :
  jwt_verify tok SECRET_KEY now = None ->
  ((exists item, In item (tokenBlacklist st) /\ token item = tok) ->
   verifyToken SECRET_KEY tok now st = NotValid "Token has been revoked") /\
  ((forall item, In item (tokenBlacklist st) -> token item <> tok) ->
   verifyToken SECRET_KEY tok now st = NotValid "Invalid token") /\
  (forall st',
      ((exists item, In item (tokenBlacklist st') /\ token item = tok) <->
       (exists item, In item (tokenBlacklist st) /\ token item = tok)) ->
      verifyToken SECRET_KEY tok now st' = verifyToken SECRET_KEY tok now st).
Proof.
  intros Hbad. unfold verifyToken. rewrite Hbad. split; [|split].
  - intros H. apply isBlacklisted_In in H. rewrite H. reflexivity.
  - intros H. destruct (isBlacklisted tok st) eqn:E; [|reflexivity].
    apply isBlacklisted_In in E. destruct E as (item & Hin & Heq).
    exfalso. eapply H; eauto.
  - intros st' Hagree.
    destruct (isBlacklisted tok st) eqn:E.
    + apply isBlacklisted_In in E. apply Hagree in E.
      apply isBlacklisted_In in E. rewrite E. reflexivity.
    + destruct (isBlacklisted tok st') eqn:E'; [|reflexivity].
      apply isBlacklisted_In in E'. apply Hagree in E'.
      apply isBlacklisted_In in E'. congruence.
Qed.

Lemma verifyToken_checks_revocation_first_witness :
  verifyToken (J := sampleJwt) "server-key" "h.p.forged" 1700000100000 sampleStore
  = NotValid "Invalid token".
Proof.
  apply (proj1 (proj2 (verifyToken_checks_revocation_first (J := sampleJwt)
                         "server-key" "h.p.forged" 1700000100000 sampleStore
                         eq_refl))).
  intros item Hin. destruct Hin.
Defined.

(** C4 as stated fails: the forged token does not verify under the key of
    the service, and two stores that differ in the revocation list only give
    it two different answers. *)
Lemma tampered_token_answer_depends_on_blacklist :
  let st1 := sampleStore in
  let st2 := snd (logout (J := sampleJwt) "h.p.forged" sampleStore) in
  jwt_verify (Jwt := sampleJwt) "h.p.forged" "server-key" 1700000100000 = None /\
  users st1 = users st2 /\ notes st1 = notes st2 /\ tags st1 = tags st2 /\
  verifyToken (J := sampleJwt) "server-key" "h.p.forged" 1700000100000 st1
  = NotValid "Invalid token" /\
  verifyToken (J := sampleJwt) "server-key" "h.p.forged" 1700000100000 st2
  = NotValid "Token has been revoked" /\
  verifyToken (J := sampleJwt) "server-key" "h.p.forged" 1700000100000 st1
  <> verifyToken (J := sampleJwt) "server-key" "h.p.forged" 1700000100000 st2.
Proof.
  simpl. repeat split; try reflexivity. discriminate.
Qed.

(** ** Dispatch *)

(** A handler is picked by the method alone: what the caller sends as
    metadata never reaches it. *)
Lemma serve_ignores_metadata {J : Jwt} {B : Bcrypt} (SECRET_KEY : string)
    (env : Env) (md md' : list (string * string)) (rpc : Rpc) (st : Store) :
  serve SECRET_KEY env (mkCall md rpc) st
  = serve SECRET_KEY env (mkCall md' rpc) st.
Proof. reflexivity. Qed.

(** The REST routes call their handler only behind [authenticateToken]:
    without a bearer token, with a revoked one or with one that [jwt.verify]
    turns down, the route answers 401 or 403 and the store is not touched. *)
Lemma rest_guarded_needs_valid_token {J : Jwt} (SECRET_KEY : string) {A}
    (handler : Store -> A * Store) (bearer : option string) (now : Z)
    (st : Store) :
  (forall a, fst (Rest.guarded SECRET_KEY handler bearer now st) = inr a ->
     exists tok user,
       bearer = Some tok /\
       jwt_verify tok SECRET_KEY now = Some user /\
       (forall item, In item (tokenBlacklist st) -> token item <> tok)) /\
  ((forall tok user, bearer = Some tok ->
                     jwt_verify tok SECRET_KEY now <> Some user) ->
   exists status msg,
     Rest.guarded SECRET_KEY handler bearer now st = (inl (status, msg), st)).
Proof.
  unfold Rest.guarded, Rest.authenticateToken. split.
  - intros a. destruct bearer as [tok|]; simpl; [|discriminate].
    destruct (tok =? "")%string; simpl; [discriminate|].
    destruct (Js.some _ (tokenBlacklist st)) eqn:Hb; simpl; [discriminate|].
    destruct (jwt_verify tok SECRET_KEY now) as [user|] eqn:Hv; simpl;
      [|discriminate].
    intros _. exists tok, user. repeat split; auto.
    intros item Hin Heq.
    assert (isBlacklisted tok st = true)
      by (apply isBlacklisted_In; exists item; auto).
    unfold isBlacklisted in *. congruence.
  - intros Hbad. destruct bearer as [tok|]; simpl; [|eauto].
    destruct (tok =? "")%string; simpl; [eauto|].
    destruct (Js.some _ (tokenBlacklist st)); simpl; [eauto|].
    destruct (jwt_verify tok SECRET_KEY now) as [user|] eqn:Hv; simpl; [|eauto].
    exfalso. eapply Hbad; eauto.
Qed.

(** C1 on the gRPC service: [getNotes] is dispatched for a call without any
    token, and for a call whose token [verifyToken] turns down; both get the
    notes of the user named in the request. *)
Theorem getNotes_served_without_valid_token :
  let rpc := RpcGetNotes (mkNoteFilter "u1" None None) in
  verifyToken (J := sampleJwt) "server-key" "h.p.forged" 1700000100000 sampleStore
  = NotValid "Invalid token" /\
  serve (J := sampleJwt) (B := plainBcrypt) "server-key" sampleEnv
    (mkCall [] rpc) sampleStore
  = (NotesReply (ok "Notes retrieved successfully" [aliceNote]), sampleStore) /\
  serve (J := sampleJwt) (B := plainBcrypt) "server-key" sampleEnv
    (mkCall [("authorization", "Bearer h.p.forged")] rpc) sampleStore
  = (NotesReply (ok "Notes retrieved successfully" [aliceNote]), sampleStore).
Proof. repeat split. Qed.

(** ** Deleting a tag *)

Lemma deleteTag_strips_every_note (req : OwnedId) (st : Store) :
  success (fst (deleteTag req st)) = true ->
  notes (snd (deleteTag req st)) = map (stripTag (owned_id req)) (notes st).
Proof.
  unfold deleteTag.
  destruct (Js.findIndex _ (tags st)); simpl; [reflexivity | discriminate].
Qed.

Lemma stripTag_changes_holder (id : string) (note : Note) :
  hasTag id note = true -> stripTag id note <> note.
Proof.
  unfold hasTag, stripTag. destruct note as [i t c tg u ca ua ar co]. simpl.
  destruct tg as [l|]; [|discriminate].
  intros H. rewrite H. intros Heq. inversion Heq as [Hl].
  assert (Hin : Js.includes id (filter (fun tagId => negb (tagId =? id)%string) l)
                = true) by (rewrite Hl; exact H).
  unfold Js.includes in Hin. apply existsb_exists in Hin.
  destruct Hin as (x & Hx & Hxid). apply filter_In in Hx. destruct Hx as [_ Hx].
  rewrite Hxid in Hx. discriminate.
Qed.

(** The gRPC [deleteTag] rewrites every note that holds the id, whoever owns
    it. *)
Lemma deleteTag_rewrites_foreign_holder (req : OwnedId) (st : Store)
    (j : nat) (note : Note) :
  success (fst (deleteTag req st)) = true ->
  nth_error (notes st) j = Some note ->
  note_userId note <> owned_userId req ->
  hasTag (owned_id req) note = true ->
  exists note', nth_error (notes (snd (deleteTag req st))) j = Some note' /\
                note' <> note.
Proof.
  intros Hs Hj _ Hhas. rewrite (deleteTag_strips_every_note _ _ Hs).
  exists (stripTag (owned_id req) note). split.
  - rewrite nth_error_map, Hj. reflexivity.
  - apply stripTag_changes_holder. exact Hhas.
Qed.

Lemma stripOwned_keeps_foreign (id userId : string) (l : list Note) (j : nat)
    (note : Note) :
  nth_error l j = Some note -> note_userId note <> userId ->
  nth_error (fst (Rest.stripOwned id userId l)) j = Some note.
Proof.
  revert j. induction l as [|a l IH]; intros [|j]; simpl; intros Hj Hne;
    try discriminate.
  - inversion Hj; subst a.
    destruct (note_userId note =? userId)%string eqn:E;
      [apply String.eqb_eq in E; contradiction | reflexivity].
  - destruct (note_userId a =? userId)%string.
    + destruct (note_tagIds a); simpl; auto.
    + simpl. auto.
Qed.

(** The REST [DELETE /tags/:id] leaves every note of another owner as it
    was. *)
Lemma rest_deleteTag_keeps_foreign_notes (req : OwnedId) (st : Store)
    (j : nat) (note : Note) :
  nth_error (notes st) j = Some note ->
  note_userId note <> owned_userId req ->
  nth_error (notes (snd (Rest.deleteTag req st))) j = Some note.
Proof.
  intros Hj Hne. unfold Rest.deleteTag, Rest.deleteTagSaving.
  destruct (Js.findIndex _ (tags st)); simpl; [|exact Hj].
  destruct (snd (Rest.stripOwned _ _ _)); simpl;
    apply stripOwned_keeps_foreign; assumption.
Qed.

(** C2 on the gRPC service: alice deletes her tag [t1]; the note of bob,
    which holds the string [t1] too, loses it. *)
Theorem deleteTag_rewrites_note_of_other_owner :
  let r := deleteTag (mkOwnedId "t1" "u1") sampleStore in
  nth_error (notes sampleStore) 1 = Some bobNote /\
  note_userId bobNote = "u2"%string /\
  fst r = ok "Tag deleted successfully" tt /\
  tags (snd r) = [] /\
  nth_error (notes (snd r)) 1
  = Some (mkNote "n2" "Ideas" "rocket" (Some []) "u2" 1100 1100 false "#ffffff") /\
  nth_error (notes (snd r)) 1 <> nth_error (notes sampleStore) 1 /\
  nth_error (notes (snd (Rest.deleteTag (mkOwnedId "t1" "u1") sampleStore))) 1
  = Some bobNote.
Proof. simpl. repeat split; try reflexivity. discriminate. Qed.

(** ** Deleting a user *)

Lemma last_nonempty {A} (x : A) (l : list A) (d d' : A) :
  last (x :: l) d = last (x :: l) d'.
Proof.
  revert x. induction l as [|y l IH]; intros x; [reflexivity|].
  change (last (y :: l) d = last (y :: l) d'). apply IH.
Qed.

Lemma trace_last (body : list Stmt) (st : Store) :
  last (trace body st) st = run body st.
Proof.
  revert st. induction body as [|stmt body IH]; intros st.
  - reflexivity.
  - change (run (stmt :: body) st) with (run body (stmt st)).
    rewrite <- IH. simpl trace.
    destruct (trace body (stmt st)) as [|s l] eqn:E; [reflexivity|].
    change (last (s :: l) st = last (s :: l) (stmt st)).
    apply last_nonempty.
Qed.

(** The last store of the trace is the store that [deleteUser] returns. *)
Lemma deleteUser_trace_ends (id : string) (st : Store) :
  last (deleteUser_trace id st) st = snd (deleteUser id st).
Proof.
  unfold deleteUser_trace, deleteUser.
  destruct (Js.findIndex _ (users st)); simpl; [|reflexivity].
  apply (trace_last (deleteUser_body id n) st).
Qed.

Lemma some_filter_negb {A} (p : A -> bool) (l : list A) :
  Js.some p (filter (fun x => negb (p x)) l) = false.
Proof.
  unfold Js.some. induction l as [|a l IH]; simpl; auto.
  destruct (p a) eqn:E; simpl; auto. rewrite E. simpl. exact IH.
Qed.

Lemma splice1_keeps {A} (p : A -> bool) (i : nat) (x : A) (l : list A) :
  Js.findIndex p l = Some i -> In x l -> p x = false -> In x (Js.splice1 i l).
Proof.
  revert i. induction l as [|a l IH]; simpl; intros i Hi Hin Hp.
  - contradiction.
  - destruct (p a) eqn:Ha.
    + inversion Hi; subst. simpl. destruct Hin as [->|]; [congruence | assumption].
    + destruct (Js.findIndex p l) as [j|]; simpl in Hi; inversion Hi; subst.
      simpl. destruct Hin as [->|]; [left; reflexivity | right; eauto].
Qed.

(** What [deleteUser] does to the others: every user with another id stays,
    the notes and the tags of the other owners are exactly the ones that
    were there, and those of the deleted owner are gone. *)
Lemma deleteUser_keeps_the_others (id : string) (st : Store) :
  success (fst (deleteUser id st)) = true ->
  let st' := snd (deleteUser id st) in
  (forall u, In u (users st) -> user_id u <> id -> In u (users st')) /\
  (forall n, In n (notes st') <-> In n (notes st) /\ note_userId n <> id) /\
  (forall t, In t (tags st') <-> In t (tags st) /\ tag_userId t <> id) /\
  tokenBlacklist st' = tokenBlacklist st.
Proof.
  unfold deleteUser.
  destruct (Js.findIndex (hasId id) (users st)) as [i|] eqn:Hi; simpl;
    [intros _ | discriminate].
  repeat split.
  - intros u Hu Hne. eapply splice1_keeps; eauto.
    unfold hasId. apply String.eqb_neq. exact Hne.
  - apply filter_In in H. tauto.
  - apply filter_In in H. destruct H as [_ H].
    apply negb_true_iff in H. apply String.eqb_neq in H. exact H.
  - intros [Hin Hne]. apply filter_In. split; auto.
    apply negb_true_iff. apply String.eqb_neq. exact Hne.
  - apply filter_In in H. tauto.
  - apply filter_In in H. destruct H as [_ H].
    apply negb_true_iff in H. apply String.eqb_neq in H. exact H.
  - intros [Hin Hne]. apply filter_In. split; auto.
    apply negb_true_iff. apply String.eqb_neq. exact Hne.
Qed.

(** The gRPC [deleteUser] splices the user out first: when the id is the id
    of one user only and that user has a note or a tag, the first store of
    the trace has lost the user and still holds the note or the tag. *)
Lemma deleteUser_orphans_first (id : string) (st : Store) (i : nat) :
  Js.findIndex (hasId id) (users st) = Some i ->
  Js.some (hasId id) (Js.splice1 i (users st)) = false ->
  (Js.some (fun note => (note_userId note =? id)%string) (notes st)
   || Js.some (fun tag => (tag_userId tag =? id)%string) (tags st))%bool = true ->
  exists s rest, deleteUser_trace id st = s :: rest /\ orphans id s = true.
Proof.
  intros Hi Hu Hd. unfold deleteUser_trace. rewrite Hi. simpl.
  eexists. eexists. split; [reflexivity|].
  unfold orphans. simpl. rewrite Hu, Hd. reflexivity.
Qed.

(** The REST [DELETE /users/:id] removes the notes and the tags first and
    the user last: no store of its trace has lost the user while a note or a
    tag of that user is left. *)
Lemma rest_deleteUser_never_orphans (id : string) (st s : Store) :
  In s (Rest.deleteUser_trace id st) -> orphans id s = false.
Proof.
  unfold Rest.deleteUser_trace.
  destruct (Js.findIndex (hasId id) (users st)) as [i|] eqn:Hi; simpl;
    [|contradiction].
  assert (Hu : Js.some (hasId id) (users st) = true).
  { destruct (Js.some (hasId id) (users st)) eqn:E; auto.
    apply findIndex_none in E. congruence. }
  intros [<- | [<- | [<- | []]]]; unfold orphans; simpl.
  - rewrite Hu. reflexivity.
  - rewrite Hu. reflexivity.
  - rewrite (some_filter_negb (fun note => (note_userId note =? id)%string)).
    rewrite (some_filter_negb (fun tag => (tag_userId tag =? id)%string)).
    apply andb_false_r.
Qed.

(** C3 on the gRPC service: deleting alice goes through a store without the
    user alice that still has her note and her tag, then through one that
    still has her tag; the REST route goes through no such store.  The note
    of bob is in the store at the end. *)
Theorem deleteUser_removes_user_before_dependents :
  map (orphans "u1") (deleteUser_trace "u1" sampleStore) = [true; true; false] /\
  (exists s1 s2 s3,
      deleteUser_trace "u1" sampleStore = [s1; s2; s3] /\
      map user_id (users s1) = ["u2"%string] /\
      notes s1 = [aliceNote; bobNote] /\ tags s1 = [aliceTag] /\
      notes s2 = [bobNote] /\ tags s2 = [aliceTag] /\
      s3 = snd (deleteUser "u1" sampleStore) /\
      notes s3 = [bobNote] /\ tags s3 = []) /\
  map (orphans "u1") (Rest.deleteUser_trace "u1" sampleStore)
  = [false; false; false].
Proof.
  split; [reflexivity|]. split; [|reflexivity].
  do 3 eexists. repeat split.
Qed.

(** ** Registration over REST *)

(** [POST /register] turns down a request without a username, or with the
    empty one, before anything else; the gRPC [register] has no such test. *)
Lemma rest_register_rejects_empty_username {J : Jwt} {B : Bcrypt}
    (SECRET_KEY uuid salt : string) (now : Z)
    (username password : option string) (st : Store) :
  username = None \/ username = Some ""%string ->
  Rest.register SECRET_KEY uuid salt now username password st
  = (inl (400, "Username and password are required"), st).
Proof.
  intros [-> | ->]; reflexivity.
Qed.

(** * Further properties of the handlers *)

(** ** Arrays, continued *)

Lemma findIndex_split {A} (p : A -> bool) (l : list A) (i : nat) :
  Js.findIndex p l = Some i ->
  exists before x after,
    l = (before ++ x :: after)%list /\
    Js.splice1 i l = (before ++ after)%list /\
    length before = i /\ p x = true /\
    (forall y, In y before -> p y = false).
Proof.
  revert i. induction l as [|a l IH]; simpl; intros i Hi.
  - discriminate.
  - destruct (p a) eqn:Ha.
    + inversion Hi; subst. exists [], a, l. simpl. repeat split; auto.
      intros y [].
    + destruct (Js.findIndex p l) as [j|]; simpl in Hi; inversion Hi; subst.
      destruct (IH j eq_refl) as (before & x & after & Hl & Hs & Hlen & Hx & Hb).
      exists (a :: before), x, after. simpl. rewrite <- Hl, Hs, Hlen.
      repeat split; auto.
      intros y [<- | Hy]; auto.
Qed.

Lemma find_none_iff {A} (p : A -> bool) (l : list A) :
  Js.find p l = None <-> (forall x, In x l -> p x = false).
Proof.
  unfold Js.find. split.
  - apply find_none.
  - induction l as [|a l IH]; simpl; intros H; auto.
    rewrite (H a (or_introl eq_refl)). apply IH. intros x Hx. apply H. auto.
Qed.

Lemma find_push_old {A} (p : A -> bool) (v x : A) (l : list A) :
  Js.find p l = Some x -> Js.find p (Js.push v l) = Some x.
Proof.
  unfold Js.find, Js.push. induction l as [|a l IH]; simpl; intros H.
  - discriminate.
  - destruct (p a); auto.
Qed.

Lemma map_assign {A C} (f : A -> C) (i : nat) (v x : A) (l : list A) :
  nth_error l i = Some x -> f v = f x -> map f (Js.assign i v l) = map f l.
Proof.
  revert i. induction l as [|a l IH]; intros [|i]; simpl; intros Hx Hf;
    try discriminate.
  - inversion Hx; subst. rewrite Hf. reflexivity.
  - rewrite (IH i Hx Hf). reflexivity.
Qed.

Lemma ownedNote_true (id userId : string) (note : Note) :
  ownedNote id userId note = true <->
  note_id note = id /\ note_userId note = userId.
Proof.
  unfold ownedNote. rewrite andb_true_iff, !String.eqb_eq. tauto.
Qed.

Lemma ownedTag_true (id userId : string) (tag : Tag) :
  ownedTag id userId tag = true <->
  tag_id tag = id /\ tag_userId tag = userId.
Proof.
  unfold ownedTag. rewrite andb_true_iff, !String.eqb_eq. tauto.
Qed.

(** ** Reading notes *)

(** X1. [getNote] never changes the store and looks a note up under the id
    and the owner together: the note it returns is a note of the store with
    that id and that owner, it succeeds as soon as the store has one, and a
    note that has the id under another owner only is answered
    ['Note not found'], as if it were not there. *)
Theorem getNote_is_owner_scoped (req : OwnedId) (st : Store) :
  snd (getNote req st) = st /\
  (forall note,
      payload (fst (getNote req st)) = Some note ->
      fst (getNote req st) = ok "Note retrieved successfully" note /\
      In note (notes st) /\
      note_id note = owned_id req /\ note_userId note = owned_userId req) /\
  ((exists note, In note (notes st) /\ note_id note = owned_id req /\
                 note_userId note = owned_userId req) ->
   success (fst (getNote req st)) = true) /\
  ((forall note, In note (notes st) -> note_id note = owned_id req ->
                 note_userId note <> owned_userId req) ->
   fst (getNote req st) = failure "Note not found").
Proof.
  unfold getNote.
  destruct (Js.find _ (notes st)) as [found|] eqn:Hf; simpl.
  - apply find_some in Hf. destruct Hf as [Hin Hp].
    apply ownedNote_true in Hp. destruct Hp as [Hid Hu].
    repeat split; auto.
    + inversion H; subst; reflexivity.
    + inversion H; subst; assumption.
    + inversion H; subst; assumption.
    + inversion H; subst; assumption.
    + intros Hforeign. exfalso. eapply Hforeign; eauto.
  - repeat split; auto; try discriminate.
    intros (note & Hin & Hid & Hu).
    pose proof (proj1 (find_none_iff _ _) Hf note Hin) as Hp.
    assert (ownedNote (owned_id req) (owned_userId req) note = true)
      by (apply ownedNote_true; auto).
    congruence.
Qed.

Lemma hasTag_true (t : string) (note : Note) :
  hasTag t note = true <->
  exists ids, note_tagIds note = Some ids /\ In t ids.
Proof.
  unfold hasTag, Js.includes. destruct (note_tagIds note) as [ids|].
  - rewrite existsb_exists. split.
    + intros (x & Hx & Hxt). apply String.eqb_eq in Hxt. subst x.
      exists ids. auto.
    + intros (ids' & Hids & Hin). inversion Hids; subst ids'.
      exists t. split; auto. apply String.eqb_refl.
  - split; [discriminate | intros (ids & Hids & _); discriminate].
Qed.

Lemma filter_filter {A} (p q : A -> bool) (l : list A) :
  filter q (filter p l) = filter (fun x => p x && q x)%bool l.
Proof.
  induction l as [|a l IH]; simpl; auto.
  destruct (p a); simpl; [destruct (q a)|]; rewrite IH; reflexivity.
Qed.

(** The second filter of [getNotes]. *)
Lemma archived_layer (fa : option bool) (l : list Note) :
  exists keep,
    match fa with
    | Some archived =>
        filter (fun note => Bool.eqb (note_archived note) archived) l
    | None => l
    end = filter keep l /\
    forall note, keep note = true <->
                 (forall a, fa = Some a -> note_archived note = a).
Proof.
  destruct fa as [a|].
  - eexists. split; [reflexivity|]. intros note. simpl.
    rewrite Bool.eqb_true_iff. split.
    + intros H a' Ha'. inversion Ha'; subst; auto.
    + intros H. apply H. reflexivity.
  - exists (fun _ => true). split; [symmetry; apply filter_true|].
    intros note. split; [discriminate | reflexivity].
Qed.

(** The third filter of [getNotes]. *)
Lemma tag_layer (ft : option string) (l : list Note) :
  exists keep,
    (if Js.truthy ft then filter (hasTag (Js.defined ft "")) l else l)
    = filter keep l /\
    forall note, keep note = true <->
                 (forall t, ft = Some t -> t <> ""%string ->
                            exists ids, note_tagIds note = Some ids /\ In t ids).
Proof.
  destruct ft as [t|]; simpl.
  - destruct (t =? "")%string eqn:Et; simpl.
    + apply String.eqb_eq in Et. exists (fun _ => true).
      split; [symmetry; apply filter_true|].
      intros note. split; [|reflexivity].
      intros _ t' Ht' Hne. inversion Ht'; subst. contradiction.
    + apply String.eqb_neq in Et. eexists. split; [reflexivity|].
      intros note. rewrite hasTag_true. split.
      * intros H t' Ht' _. inversion Ht'; subst; auto.
      * intros H. apply H; auto.
  - exists (fun _ => true). split; [symmetry; apply filter_true|].
    intros note. split; [discriminate | reflexivity].
Qed.

(** X2. [getNotes] never changes the store and always succeeds.  Its list
    holds exactly the notes of the store that belong to the user of the
    request, have the [archived] flag of the request when it gives one, and
    hold the tag id of the request when it gives a truthy one; an empty tag
    id filters nothing.  The notes come in the order of the store. *)
Theorem getNotes_lists_exactly_the_matches (req : NoteFilter) (st : Store) :
  exists l,
    getNotes req st = (ok "Notes retrieved successfully" l, st) /\
    (forall note,
        In note l <->
        In note (notes st) /\
        note_userId note = filter_userId req /\
        (forall a, filter_archived req = Some a -> note_archived note = a) /\
        (forall t, filter_tagId req = Some t -> t <> ""%string ->
                   exists ids, note_tagIds note = Some ids /\ In t ids)) /\
    (exists keep, l = filter keep (notes st)).
Proof.
  unfold getNotes. eexists. split; [reflexivity|].
  set (owned := filter (fun note => (note_userId note =? filter_userId req)%string)
                  (notes st)).
  destruct (archived_layer (filter_archived req) owned) as (ka & Ea & Ha).
  rewrite Ea.
  destruct (tag_layer (filter_tagId req) (filter ka owned)) as (kt & Et & Ht).
  rewrite Et. unfold owned. split.
  - intros note. rewrite !filter_In, String.eqb_eq, Ha, Ht. tauto.
  - rewrite !filter_filter. eexists. reflexivity.
Qed.

(** ** Writing notes *)

(** X3. [deleteNote] takes out one note, the first of the store that has the
    id and the owner of the request, and leaves every other note, in order,
    as well as the other arrays.  When the store has no such note (the id is
    unknown, or it is the id of a note of somebody else) the answer is
    ['Note not found'] and the store is the same. *)
Theorem deleteNote_removes_the_first_owned_match (req : OwnedId) (st : Store) :
  let r := deleteNote req st in
  (success (fst r) = true ->
   exists before gone after,
     notes st = (before ++ gone :: after)%list /\
     notes (snd r) = (before ++ after)%list /\
     note_id gone = owned_id req /\ note_userId gone = owned_userId req /\
     (forall n, In n before ->
                ~ (note_id n = owned_id req /\ note_userId n = owned_userId req)) /\
     users (snd r) = users st /\ tags (snd r) = tags st /\
     tokenBlacklist (snd r) = tokenBlacklist st) /\
  (success (fst r) = false ->
   r = (failure "Note not found", st) /\
   forall n, In n (notes st) ->
             ~ (note_id n = owned_id req /\ note_userId n = owned_userId req)).
Proof.
  unfold deleteNote.
  destruct (Js.findIndex _ (notes st)) as [i|] eqn:Hi; simpl.
  - split; [intros _ | discriminate].
    destruct (findIndex_split _ _ _ Hi)
      as (before & gone & after & Hl & Hs & _ & Hp & Hb).
    apply ownedNote_true in Hp. destruct Hp as [Hid Hu].
    exists before, gone, after. repeat split; auto.
    intros n Hn Hown. apply ownedNote_true in Hown.
    rewrite (Hb n Hn) in Hown. discriminate.
  - split; [discriminate | intros _]. split; [reflexivity|].
    intros n Hn Hown. apply ownedNote_true in Hown.
    apply findIndex_none in Hi. unfold Js.some in Hi.
    assert (existsb (ownedNote (owned_id req) (owned_userId req)) (notes st)
            = true) by (apply existsb_exists; eauto).
    congruence.
Qed.

(** X4. A note that [createNote] has made can be read back: when no note of
    the store has the new id under the owner of the request, [getNote] with
    that id and that owner returns the very note of the response of
    [createNote]; and every note that [getNote] found before is still what
    it finds. *)
Theorem getNote_after_createNote (uuid : string) (now now' : Z) (req : NewNote)
    (st : Store) :
  (forall n, In n (notes st) ->
             ~ (note_id n = uuid /\ note_userId n = new_userId req)) ->
  let r := createNote uuid now now' req st in
  (exists note,
      payload (fst r) = Some note /\
      getNote (mkOwnedId uuid (new_userId req)) (snd r)
      = (ok "Note retrieved successfully" note, snd r)) /\
  (forall q old,
      fst (getNote q st) = ok "Note retrieved successfully" old ->
      fst (getNote q (snd r)) = ok "Note retrieved successfully" old).
Proof.
  intros Hfresh. simpl. split.
  - eexists. split; [reflexivity|].
    unfold getNote. simpl.
    rewrite find_push_fresh; [reflexivity | | ].
    + destruct (Js.some _ (notes st)) eqn:E; auto.
      unfold Js.some in E. apply existsb_exists in E.
      destruct E as (n & Hn & Hown). apply ownedNote_true in Hown.
      exfalso. eapply Hfresh; eauto.
    + apply ownedNote_true. simpl. auto.
  - intros q old. unfold getNote. simpl.
    destruct (Js.find _ (notes st)) as [found|] eqn:Hf; simpl; [|discriminate].
    intros H. inversion H; subst found.
    rewrite (find_push_old _ _ _ _ Hf). reflexivity.
Qed.

Lemma getNote_after_createNote_witness :
  exists note,
    payload (fst (createNote "n3" 2000 2000
                    (mkNewNote (Some "Todo") None None "u2" None) sampleStore))
    = Some note /\
    getNote (mkOwnedId "n3" "u2")
      (snd (createNote "n3" 2000 2000
              (mkNewNote (Some "Todo") None None "u2" None) sampleStore))
    = (ok "Note retrieved successfully" note,
       snd (createNote "n3" 2000 2000
              (mkNewNote (Some "Todo") None None "u2" None) sampleStore)).
Proof.
  apply (getNote_after_createNote "n3" 2000 2000
           (mkNewNote (Some "Todo") None None "u2" None) sampleStore).
  intros n Hn [Hid _]. simpl in Hn.
  destruct Hn as [<- | [<- | []]]; discriminate Hid.
Defined.

(** X5. [updateNote] never moves a note to another id or another owner and
    never touches a creation date: the ids, the owners and the [createdAt]
    of the notes of the store are, position by position, what they were,
    whatever the request.  When no note has the id under the owner of the
    request, the answer is ['Note not found'] and the store is the same. *)
Theorem updateNote_keeps_ids_owners_and_creation (now : Z) (req : NotePatch)
    (st : Store) :
  let r := updateNote now req st in
  map note_id (notes (snd r)) = map note_id (notes st) /\
  map note_userId (notes (snd r)) = map note_userId (notes st) /\
  map note_createdAt (notes (snd r)) = map note_createdAt (notes st) /\
  users (snd r) = users st /\ tags (snd r) = tags st /\
  tokenBlacklist (snd r) = tokenBlacklist st /\
  ((forall n, In n (notes st) ->
              ~ (note_id n = patch_id req /\ note_userId n = patch_userId req)) ->
   r = (failure "Note not found", st)).
Proof.
  unfold updateNote.
  destruct (Js.findIndex _ (notes st)) as [i|] eqn:Hi; simpl.
  - destruct (findIndex_nth _ _ _ Hi) as (old & Hnth & Hp & _).
    rewrite Hnth. simpl.
    rewrite !(map_assign _ i (patchNote now req old) old (notes st) Hnth)
      by reflexivity.
    repeat split; auto.
    intros Hnone. exfalso. apply ownedNote_true in Hp.
    apply (Hnone old); auto. eapply nth_error_In; eauto.
  - repeat split; auto.
Qed.

(** ** Tags *)

(** X6. The two reads of tags are scoped by owner and never change the
    store.  [getTags] lists exactly the tags of the user of the request, in
    the order of the store.  [getTag] returns a tag of the store that has the
    id and the owner of the request, and answers ['Tag not found'] when the
    id is known under other owners only. *)
Theorem tag_reads_are_owner_scoped (req : OwnedId) (st : Store) :
  (exists l,
      getTags (owned_userId req) st = (ok "Tags retrieved successfully" l, st) /\
      (forall tag, In tag l <->
                   In tag (tags st) /\ tag_userId tag = owned_userId req) /\
      (exists keep, l = filter keep (tags st))) /\
  snd (getTag req st) = st /\
  (forall tag,
      payload (fst (getTag req st)) = Some tag ->
      In tag (tags st) /\ tag_id tag = owned_id req /\
      tag_userId tag = owned_userId req) /\
  ((exists tag, In tag (tags st) /\ tag_id tag = owned_id req /\
                tag_userId tag = owned_userId req) ->
   success (fst (getTag req st)) = true) /\
  ((forall tag, In tag (tags st) -> tag_id tag = owned_id req ->
                tag_userId tag <> owned_userId req) ->
   fst (getTag req st) = failure "Tag not found").
Proof.
  split.
  { unfold getTags. eexists. split; [reflexivity|]. split.
    - intros tag. rewrite filter_In, String.eqb_eq. tauto.
    - eexists. reflexivity. }
  unfold getTag.
  destruct (Js.find _ (tags st)) as [found|] eqn:Hf; simpl.
  - apply find_some in Hf. destruct Hf as [Hin Hp].
    apply ownedTag_true in Hp. destruct Hp as [Hid Hu].
    split; [reflexivity|]. split; [|split].
    + intros tag Htag. inversion Htag; subst. auto.
    + reflexivity.
    + intros Hforeign. exfalso. eapply Hforeign; eauto.
  - split; [reflexivity|]. split; [|split].
    + discriminate.
    + intros (tag & Hin & Hid & Hu).
      pose proof (proj1 (find_none_iff _ _) Hf tag Hin) as Hp.
      assert (ownedTag (owned_id req) (owned_userId req) tag = true)
        by (apply ownedTag_true; auto).
      congruence.
    + reflexivity.
Qed.

(** X7. [createTag] always succeeds and does not compare names: the tags
    that [getTags] lists for the owner afterwards are the ones it listed
    before followed by the new tag, even when a tag of that owner has the
    same name already; the list of every other user is what it was. *)
Theorem getTags_after_createTag (uuid : string) (now now' : Z) (req : NewTag)
    (st : Store) :
  let r := createTag uuid now now' req st in
  exists tag,
    fst r = ok "Tag created successfully" tag /\
    tag_name tag = newtag_name req /\
    (forall old,
        payload (fst (getTags (newtag_userId req) st)) = Some old ->
        payload (fst (getTags (newtag_userId req) (snd r)))
        = Some (old ++ [tag])%list) /\
    (forall other, other <> newtag_userId req ->
                   fst (getTags other (snd r)) = fst (getTags other st)).
Proof.
  simpl. eexists. split; [reflexivity|]. split; [reflexivity|]. split.
  - intros old H. unfold getTags in *. simpl in *. inversion H; subst old.
    unfold Js.push. rewrite filter_app. simpl.
    rewrite String.eqb_refl. reflexivity.
  - intros other Hne. unfold getTags. simpl. unfold Js.push.
    rewrite filter_app. simpl.
    destruct (newtag_userId req =? other)%string eqn:E.
    + apply String.eqb_eq in E. congruence.
    + rewrite app_nil_r. reflexivity.
Qed.

(** X8. [updateTag] on a tag that exists under the id and the owner of the
    request: the name becomes the name of the request when it gives one and
    stays otherwise, [updatedAt] becomes the reading of the clock, and the
    id, the owner and [createdAt] stay.  The ids and the owners of the tags
    of the store are, position by position, what they were, and the notes
    are not touched. *)
Theorem updateTag_changes_the_name_only (now : Z) (req : TagPatch) (st : Store)
    (old : Tag) :
  Js.find (ownedTag (tagpatch_id req) (tagpatch_userId req)) (tags st)
  = Some old ->
  exists updated,
    fst (updateTag now req st) = ok "Tag updated successfully" updated /\
    let st' := snd (updateTag now req st) in
    tag_name updated
      = match tagpatch_name req with Some v => v | None => tag_name old end /\
    tag_updatedAt updated = now /\
    tag_id updated = tag_id old /\ tag_userId updated = tag_userId old /\
    tag_createdAt updated = tag_createdAt old /\
    map tag_id (tags st') = map tag_id (tags st) /\
    map tag_userId (tags st') = map tag_userId (tags st) /\
    Js.find (ownedTag (tagpatch_id req) (tagpatch_userId req)) (tags st')
      = Some updated /\
    notes st' = notes st /\ users st' = users st /\
    tokenBlacklist st' = tokenBlacklist st.
Proof.
  intros Hold.
  destruct (find_findIndex _ _ _ Hold) as (idx & Hidx & Hnth).
  destruct (findIndex_nth _ _ _ Hidx) as (x & Hx & Hp & _).
  assert (x = old) by congruence. subst x.
  unfold updateTag. rewrite Hidx, Hnth. simpl.
  eexists. split; [reflexivity|].
  repeat split.
  - eapply map_assign; eauto.
  - eapply map_assign; eauto.
  - apply find_assign; auto.
Qed.

Lemma updateTag_changes_the_name_only_witness :
  exists updated,
    fst (updateTag 5000 (mkTagPatch "t1" (Some "house") "u1") sampleStore)
    = ok "Tag updated successfully" updated /\
    tag_name updated = "house"%string /\ tag_createdAt updated = 900.
Proof.
  destruct (updateTag_changes_the_name_only 5000
              (mkTagPatch "t1" (Some "house") "u1") sampleStore aliceTag eq_refl)
    as (updated & Hresp & Hname & _ & _ & _ & Hcre & _).
  exists updated. simpl in *. repeat split; assumption.
Defined.

Lemma includes_filter_other (id other : string) (l : list string) :
  other <> id ->
  Js.includes other (filter (fun tagId => negb (tagId =? id)%string) l)
  = Js.includes other l.
Proof.
  intros Hne. unfold Js.includes. induction l as [|a l IH]; simpl; auto.
  destruct (a =? id)%string eqn:Ea; simpl.
  - apply String.eqb_eq in Ea. subst a.
    assert (E : (id =? other)%string = false)
      by (apply String.eqb_neq; auto).
    rewrite E. simpl. exact IH.
  - rewrite IH. reflexivity.
Qed.

Lemma includes_filter_same (id : string) (l : list string) :
  Js.includes id (filter (fun tagId => negb (tagId =? id)%string) l) = false.
Proof.
  unfold Js.includes. induction l as [|a l IH]; simpl; auto.
  destruct (a =? id)%string eqn:Ea; simpl; auto.
  rewrite Ea. simpl. exact IH.
Qed.

Lemma stripTag_drops_the_id (id : string) (note : Note) :
  hasTag id (stripTag id note) = false /\
  note_id (stripTag id note) = note_id note /\
  note_userId (stripTag id note) = note_userId note /\
  (forall other, other <> id ->
                 hasTag other (stripTag id note) = hasTag other note).
Proof.
  unfold stripTag, hasTag. destruct (note_tagIds note) as [l|] eqn:Hl.
  - destruct (Js.includes id l) eqn:Hinc; simpl; rewrite ?Hl.
    + split; [apply includes_filter_same|].
      split; [reflexivity|]. split; [reflexivity|].
      intros other Hne. apply includes_filter_other. exact Hne.
    + split; [exact Hinc|]. split; [reflexivity|]. split; [reflexivity|].
      reflexivity.
  - simpl. rewrite Hl. split; [reflexivity|].
    split; [reflexivity|]. split; reflexivity.
Qed.

(** X9. A [deleteTag] that succeeds deletes no note: the ids and the owners
    of the notes are, position by position, what they were.  It takes one tag
    out, the first that has the id and the owner of the request (no tag
    before it has both); afterwards
    no note holds the id, and a note holds any other tag id exactly when it
    held it before.  A [deleteTag] that fails (no tag has the id under that
    owner) answers ['Tag not found'] and leaves the store as it was. *)
Theorem deleteTag_strips_the_id_and_keeps_the_notes (req : OwnedId)
    (st : Store) :
  let r := deleteTag req st in
  (success (fst r) = true ->
   map note_id (notes (snd r)) = map note_id (notes st) /\
   map note_userId (notes (snd r)) = map note_userId (notes st) /\
   (forall note, In note (notes (snd r)) -> hasTag (owned_id req) note = false) /\
   (forall other, other <> owned_id req ->
                  map (hasTag other) (notes (snd r))
                  = map (hasTag other) (notes st)) /\
   (exists before gone after,
       tags st = (before ++ gone :: after)%list /\
       tags (snd r) = (before ++ after)%list /\
       tag_id gone = owned_id req /\ tag_userId gone = owned_userId req /\
       (forall t, In t before ->
                  ~ (tag_id t = owned_id req /\ tag_userId t = owned_userId req))) /\
   users (snd r) = users st /\ tokenBlacklist (snd r) = tokenBlacklist st) /\
  (success (fst r) = false ->
   r = (failure "Tag not found", st) /\
   forall tag, In tag (tags st) ->
               ~ (tag_id tag = owned_id req /\ tag_userId tag = owned_userId req)).
Proof.
  unfold deleteTag.
  destruct (Js.findIndex _ (tags st)) as [i|] eqn:Hi; simpl.
  - split; [intros _ | discriminate].
    rewrite !map_map. repeat split.
    + apply map_ext. intros n. apply stripTag_drops_the_id.
    + apply map_ext. intros n. apply stripTag_drops_the_id.
    + intros note Hin. apply in_map_iff in Hin.
      destruct Hin as (n & <- & _). apply stripTag_drops_the_id.
    + intros other Hne. rewrite map_map. apply map_ext. intros n.
      apply stripTag_drops_the_id. exact Hne.
    + destruct (findIndex_split _ _ _ Hi)
        as (before & gone & after & Hl & Hs & _ & Hp & Hb).
      apply ownedTag_true in Hp. destruct Hp.
      exists before, gone, after. repeat split; auto.
      intros t Ht Hown. apply ownedTag_true in Hown.
      rewrite (Hb t Ht) in Hown. discriminate.
  - split; [discriminate | intros _]. split; [reflexivity|].
    intros tag Hin Hown. apply ownedTag_true in Hown.
    apply findIndex_none in Hi. unfold Js.some in Hi.
    assert (existsb (ownedTag (owned_id req) (owned_userId req)) (tags st) = true)
      by (apply existsb_exists; eauto).
    congruence.
Qed.

(** ** Users *)

(** X10. [login] never changes the store, and every refusal reads the same:
    an unknown username, a wrong password and an error of bcrypt are all
    answered ['Invalid username or password'], without token and without
    user.  When it succeeds, the user of the response is a user of the store
    with the username of the request, and bcrypt has accepted the password
    against the stored hash. *)
Theorem login_refuses_uniformly {J : Jwt} {B : Bcrypt} (SECRET_KEY : string)
    (now : Z) (req : Credentials) (st : Store) :
  let r := login SECRET_KEY now req st in
  snd r = st /\
  (success (fst r) = false -> fst r = failure "Invalid username or password") /\
  ((forall u, In u (users st) -> user_username u <> cred_username req) ->
   fst r = failure "Invalid username or password") /\
  (success (fst r) = true ->
   exists u,
     In u (users st) /\ user_username u = cred_username req /\
     bcrypt_compare (cred_password req) (user_password u) = Some true /\
     payload (fst r)
     = Some (mkAuthPayload (jwt_sign (user_id u) (user_username u) SECRET_KEY now)
               (mkUserInfo (user_id u) (user_username u)))).
Proof.
  unfold login.
  destruct (Js.find _ (users st)) as [u|] eqn:Hf; simpl.
  - apply find_some in Hf. destruct Hf as [Hin Hname].
    apply String.eqb_eq in Hname.
    destruct (bcrypt_compare (cred_password req) (user_password u))
      as [[|]|] eqn:Hc; simpl.
    + split; [reflexivity|]. split; [discriminate|]. split.
      * intros Hnone. exfalso. eapply Hnone; eauto.
      * intros _. exists u. auto.
    + split; [reflexivity|]. split; [reflexivity|].
      split; [reflexivity | discriminate].
    + split; [reflexivity|]. split; [reflexivity|].
      split; [reflexivity | discriminate].
  - split; [reflexivity|]. split; [reflexivity|].
    split; [reflexivity | discriminate].
Qed.

(** X11. A user that [register] has made can be read back: when [register]
    succeeds and no user of the store had the new id, [getUser] with that id
    answers the id and the username of the registration, and never a
    password. *)
Theorem getUser_after_register {J : Jwt} {B : Bcrypt}
    (SECRET_KEY uuid salt : string) (now : Z) (req : Credentials) (st : Store) :
  let r := register SECRET_KEY uuid salt now req st in
  success (fst r) = true ->
  (forall u, In u (users st) -> user_id u <> uuid) ->
  getUser uuid (snd r)
  = (ok "User retrieved successfully" (mkUserInfo uuid (cred_username req)),
     snd r).
Proof.
  unfold register.
  destruct (Js.some _ (users st)) eqn:Hdup; simpl; [discriminate|].
  destruct (bcrypt_hash (cred_password req) salt) as [h|]; simpl;
    [|discriminate].
  intros _ Hfresh. unfold getUser. simpl.
  rewrite find_push_fresh; [reflexivity | | ].
  - destruct (Js.some (hasId uuid) (users st)) eqn:E; auto.
    unfold Js.some in E. apply existsb_exists in E.
    destruct E as (u & Hu & Hid). apply String.eqb_eq in Hid.
    exfalso. eapply Hfresh; eauto.
  - apply String.eqb_refl.
Qed.

Lemma getUser_after_register_witness :
  getUser "id-1"
    (snd (register (J := sampleJwt) (B := plainBcrypt) "server-key" "id-1" "salt"
            0 (mkCredentials "carol" "pw3") sampleStore))
  = (ok "User retrieved successfully" (mkUserInfo "id-1" "carol"),
     snd (register (J := sampleJwt) (B := plainBcrypt) "server-key" "id-1" "salt"
            0 (mkCredentials "carol" "pw3") sampleStore)).
Proof.
  apply (getUser_after_register (J := sampleJwt) (B := plainBcrypt)
           "server-key" "id-1" "salt" 0 (mkCredentials "carol" "pw3")
           sampleStore eq_refl).
  intros u Hu. simpl in Hu.
  destruct Hu as [<- | [<- | []]]; discriminate.
Defined.

(** X12. [getUser] is not scoped by any owner and never changes the store:
    it answers the id and the username of the first user of the store that
    has the id, and ['User not found'] when none has it. *)
Theorem getUser_finds_by_id (id : string) (st : Store) :
  snd (getUser id st) = st /\
  (forall info,
      payload (fst (getUser id st)) = Some info ->
      info_id info = id /\
      exists u, In u (users st) /\ user_id u = id /\
                info_username info = user_username u) /\
  ((exists u, In u (users st) /\ user_id u = id) ->
   success (fst (getUser id st)) = true) /\
  ((forall u, In u (users st) -> user_id u <> id) ->
   fst (getUser id st) = failure "User not found").
Proof.
  unfold getUser.
  destruct (Js.find (hasId id) (users st)) as [u|] eqn:Hf; simpl.
  - apply find_some in Hf. destruct Hf as [Hin Hid].
    apply String.eqb_eq in Hid.
    split; [reflexivity|]. split; [|split].
    + intros info Hinfo. inversion Hinfo; subst info. simpl.
      split; [exact Hid|]. exists u. auto.
    + reflexivity.
    + intros Hnone. exfalso. eapply Hnone; eauto.
  - split; [reflexivity|]. split; [|split].
    + discriminate.
    + intros (u & Hin & Hid).
      pose proof (proj1 (find_none_iff _ _) Hf u Hin) as Hp.
      unfold hasId in Hp. apply String.eqb_neq in Hp. contradiction.
    + reflexivity.
Qed.


Lemma assign_map {A C} (f : A -> C) (i : nat) (v : A) (l : list A) :
  map f (Js.assign i v l) = Js.assign i (f v) (map f l).
Proof.
  revert i. induction l as [|a l IH]; intros [|i]; simpl; auto.
  rewrite IH. reflexivity.
Qed.

Lemma In_assign {A} (i : nat) (c x : A) (l : list A) :
  In x (Js.assign i c l) -> x = c \/ In x l.
Proof.
  revert i. induction l as [|a l IH]; intros [|i]; simpl; auto.
  - intros [<- | H]; auto.
  - intros [<- | H]; auto. destruct (IH i H); auto.
Qed.

Lemma NoDup_assign_fresh {A} (i : nat) (c : A) (l : list A) :
  NoDup l -> ~ In c l -> NoDup (Js.assign i c l).
Proof.
  revert i. induction l as [|a l IH]; intros [|i] Hnd Hc; simpl; auto.
  - inversion Hnd; subst. constructor; auto. intros H. apply Hc. right. exact H.
  - inversion Hnd; subst. constructor.
    + intros H. apply In_assign in H. destruct H as [-> | H]; auto.
      apply Hc. left. reflexivity.
    + apply IH; auto. intros H. apply Hc. right. exact H.
Qed.

Lemma NoDup_splice1 {A} (i : nat) (l : list A) :
  NoDup l -> NoDup (Js.splice1 i l).
Proof.
  revert i. induction l as [|a l IH]; intros [|i] Hnd; simpl; auto.
  - inversion Hnd; auto.
  - inversion Hnd; subst. constructor; auto.
    intros H. apply H1. clear - H. revert i H.
    induction l as [|b l IHl]; intros [|i]; simpl; auto.
    intros [<- | H]; auto. right. eapply IHl; eauto.
Qed.

Lemma splice1_map {A C} (f : A -> C) (i : nat) (l : list A) :
  map f (Js.splice1 i l) = Js.splice1 i (map f l).
Proof.
  revert i. induction l as [|a l IH]; intros [|i]; simpl; auto.
  rewrite IH. reflexivity.
Qed.


Lemma some_username_In (name : string) (l : list User) :
  Js.some (fun user => (user_username user =? name)%string) l = false ->
  ~ In name (map user_username l).
Proof.
  intros H Hin. apply in_map_iff in Hin. destruct Hin as (u & Hu & Hin).
  apply (proj1 (some_username_false name l) H u Hin Hu).
Qed.

(** What [updateUser] writes into [users], when it writes. *)
Lemma updateUser_users {B : Bcrypt} (salt : string) (req : UserPatch)
    (st : Store) :
  success (fst (updateUser salt req st)) = true ->
  exists i old name pw,
    Js.findIndex (hasId (userpatch_id req)) (users st) = Some i /\
    nth_error (users st) i = Some old /\
    user_id old = userpatch_id req /\
    snd (updateUser salt req st)
    = setUsers (Js.assign i (mkUser (user_id old) name pw)) st /\
    fst (updateUser salt req st)
    = ok "User updated successfully" (mkUserInfo (user_id old) name) /\
    (name = user_username old \/
     (userpatch_username req = Some name /\ name <> ""%string /\
      ~ In name (map user_username (users st)))) /\
    (pw = user_password old /\ Js.truthy (userpatch_password req) = false \/
     exists p, userpatch_password req = Some p /\ p <> ""%string /\
               bcrypt_hash p salt = Some pw).
Proof.
  unfold updateUser.
  destruct (Js.findIndex _ (users st)) as [i|] eqn:Hi; simpl; [|discriminate].
  destruct (findIndex_nth _ _ _ Hi) as (old & Hnth & Hid & _).
  apply String.eqb_eq in Hid. rewrite Hnth.
  destruct (userpatch_username req) as [n|] eqn:Hn; simpl.
  - destruct (n =? "")%string eqn:En; simpl.
    + destruct (userpatch_password req) as [p|] eqn:Hp; simpl.
      * destruct (p =? "")%string eqn:Ep; simpl.
        -- intros _. exists i, old, (user_username old), (user_password old).
           repeat split; auto.
        -- destruct (bcrypt_hash p salt) as [pw|] eqn:Hh; simpl; [|discriminate].
           intros _. exists i, old, (user_username old), pw.
           repeat split; auto. right. exists p. repeat split; auto.
           apply String.eqb_neq. exact Ep.
      * intros _. exists i, old, (user_username old), (user_password old).
        repeat split; auto.
    + apply String.eqb_neq in En.
      destruct (n =? user_username old)%string eqn:Eo; simpl.
      * apply String.eqb_eq in Eo. subst n.
        destruct (userpatch_password req) as [p|] eqn:Hp; simpl.
        -- destruct (p =? "")%string eqn:Ep; simpl.
           ++ intros _. exists i, old, (user_username old), (user_password old).
              repeat split; auto.
           ++ destruct (bcrypt_hash p salt) as [pw|] eqn:Hh; simpl;
                [|discriminate].
              intros _. exists i, old, (user_username old), pw.
              repeat split; auto. right. exists p. repeat split; auto.
              apply String.eqb_neq. exact Ep.
        -- intros _. exists i, old, (user_username old), (user_password old).
           repeat split; auto.
      * destruct (Js.some _ (users st)) eqn:Hs; simpl; [discriminate|].
        apply some_username_In in Hs.
        destruct (userpatch_password req) as [p|] eqn:Hp; simpl.
        -- destruct (p =? "")%string eqn:Ep; simpl.
           ++ intros _. exists i, old, n, (user_password old).
              repeat split; auto.
           ++ destruct (bcrypt_hash p salt) as [pw|] eqn:Hh; simpl;
                [|discriminate].
              intros _. exists i, old, n, pw.
              repeat split; auto. right. exists p. repeat split; auto.
              apply String.eqb_neq. exact Ep.
        -- intros _. exists i, old, n, (user_password old).
           repeat split; auto.
  - destruct (userpatch_password req) as [p|] eqn:Hp; simpl.
    + destruct (p =? "")%string eqn:Ep; simpl.
      * intros _. exists i, old, (user_username old), (user_password old).
        repeat split; auto.
      * destruct (bcrypt_hash p salt) as [pw|] eqn:Hh; simpl; [|discriminate].
        intros _. exists i, old, (user_username old), pw.
        repeat split; auto. right. exists p. repeat split; auto.
        apply String.eqb_neq. exact Ep.
    + intros _. exists i, old, (user_username old), (user_password old).
      repeat split; auto.
Qed.





(** ** Every call *)

Lemma NoDup_push {A} (x : A) (l : list A) :
  NoDup l -> ~ In x l -> NoDup (l ++ [x]).
Proof.
  induction l as [|a l IH]; simpl; intros Hnd Hx.
  - constructor; auto.
  - inversion Hnd; subst. constructor.
    + intros H. apply in_app_or in H. destruct H as [H | [<- | []]]; auto.
    + apply IH; auto.
Qed.

Ltac unfold_handlers :=
  unfold register, login, logout, getNotes, getNote, createNote, updateNote,
    deleteNote, getTags, getTag, createTag, updateTag, deleteTag, getUser,
    updateUser, deleteUser.

(** X15. A call that is served alone, from its first statement to its
    answer with no other call in between, leaves the usernames of the store
    pairwise distinct when they were: [register] pushes a username that
    nobody has, [updateUser] writes the own username or one that nobody has,
    and no other handler adds a user.  Two calls of [register] that overlap
    are outside this statement. *)
Theorem serve_keeps_usernames_distinct {J : Jwt} {B : Bcrypt}
    (SECRET_KEY : string) (env : Env) (call : Call) (st : Store) :
  NoDup (map user_username (users st)) ->
  NoDup (map user_username (users (snd (serve SECRET_KEY env call st)))).
Proof.
  intros Hnd.
  destruct call as [md [req|req|tok|req|req|req|req|req|uid|req|req|req|req|id|req|id]];
    unfold serve, reply; simpl.
  - unfold register.
    destruct (Js.some _ (users st)) eqn:Hdup; simpl; auto.
    destruct (bcrypt_hash _ _); simpl; auto.
    unfold Js.push. rewrite map_app. simpl.
    apply NoDup_push; auto. apply some_username_In. exact Hdup.
  - unfold_handlers; break_match; assumption.
  - unfold_handlers; break_match; assumption.
  - unfold_handlers; break_match; assumption.
  - unfold_handlers; break_match; assumption.
  - unfold_handlers; break_match; assumption.
  - unfold_handlers; break_match; assumption.
  - unfold_handlers; break_match; assumption.
  - unfold_handlers; break_match; assumption.
  - unfold_handlers; break_match; assumption.
  - unfold_handlers; break_match; assumption.
  - unfold_handlers; break_match; assumption.
  - unfold_handlers; break_match; assumption.
  - unfold_handlers; break_match; assumption.
  - destruct (success (fst (updateUser (env_salt env) req st))) eqn:Hs.
    + destruct (updateUser_users _ req st Hs)
        as (i & old & name & pw & _ & Hnth & _ & Hsnd & _ & Hname & _).
      rewrite Hsnd. simpl.
      destruct Hname as [-> | (_ & _ & Hfresh)].
      * rewrite (map_assign user_username i _ old (users st) Hnth)
          by reflexivity.
        exact Hnd.
      * rewrite assign_map. apply NoDup_assign_fresh; auto.
    + revert Hs. unfold updateUser. break_match; try discriminate; auto.
  - unfold deleteUser. destruct (Js.findIndex _ (users st)); simpl; auto.
    rewrite splice1_map. apply NoDup_splice1. exact Hnd.
Qed.

Lemma serve_keeps_usernames_distinct_witness :
  NoDup (map user_username
           (users (snd (serve (J := sampleJwt) (B := plainBcrypt) "server-key"
                          sampleEnv
                          (mkCall [] (RpcRegister (mkCredentials "carol" "pw3")))
                          sampleStore)))).
Proof.
  apply (serve_keeps_usernames_distinct (J := sampleJwt) (B := plainBcrypt)
           "server-key" sampleEnv
           (mkCall [] (RpcRegister (mkCredentials "carol" "pw3"))) sampleStore).
  simpl. repeat constructor; simpl; intuition discriminate.
Defined.

(** X16. A call that is answered [success: false] has changed nothing: the
    store after it is the store before it, for every method of the four
    services. *)
Theorem failed_call_changes_nothing {J : Jwt} {B : Bcrypt}
    (SECRET_KEY : string) (env : Env) (call : Call) (st : Store) :
  replySuccess (fst (serve SECRET_KEY env call st)) = false ->
  snd (serve SECRET_KEY env call st) = st.
Proof.
  destruct call as [md [req|req|tok|req|req|req|req|req|uid|req|req|req|req|id|req|id]];
    unfold serve, reply; simpl; unfold_handlers; break_match;
    simpl; intros H; try discriminate; reflexivity.
Qed.

Lemma failed_call_changes_nothing_witness :
  snd (serve (J := sampleJwt) (B := plainBcrypt) "server-key" sampleEnv
         (mkCall [] (RpcDeleteNote (mkOwnedId "n2" "u1"))) sampleStore)
  = sampleStore.
Proof.
  apply (failed_call_changes_nothing (J := sampleJwt) (B := plainBcrypt)
           "server-key" sampleEnv
           (mkCall [] (RpcDeleteNote (mkOwnedId "n2" "u1"))) sampleStore).
  reflexivity.
Defined.

(** X17. The revocation list is written by [logout] alone.  A call of any
    other method leaves the list as it was, so that [verifyToken] answers for
    every token what it answered before: deleting a user or changing a
    password revokes nothing.  A [logout] pushes at most the one entry of its
    own token, and the answer for every other token is what it was. *)
Theorem only_logout_revokes {J : Jwt} {B : Bcrypt}
    (SECRET_KEY : string) (env : Env) (call : Call) (st : Store) :
  let st' := snd (serve SECRET_KEY env call st) in
  ((forall tok, request call <> RpcLogout tok) ->
   tokenBlacklist st' = tokenBlacklist st /\
   forall tok now,
     verifyToken SECRET_KEY tok now st' = verifyToken SECRET_KEY tok now st) /\
  (forall tok, request call = RpcLogout tok ->
     (tokenBlacklist st' = tokenBlacklist st \/
      exists iso, tokenBlacklist st' = (tokenBlacklist st ++ [mkRevoked tok iso])%list) /\
     forall other now,
       other <> tok ->
       verifyToken SECRET_KEY other now st'
       = verifyToken SECRET_KEY other now st).
Proof.
  simpl. split.
  - intros Hnot.
    assert (Hbl : tokenBlacklist (snd (serve SECRET_KEY env call st))
                  = tokenBlacklist st).
    { destruct call as [md [req|req|tok|req|req|req|req|req|uid|req|req|req|req|id|req|id]];
        try (exfalso; eapply Hnot; reflexivity);
        unfold serve, reply; simpl; unfold_handlers; break_match; reflexivity. }
    split; [exact Hbl|].
    intros tok now. unfold verifyToken, isBlacklisted. rewrite Hbl. reflexivity.
  - intros tok Hreq. destruct call as [md rpc]. simpl in Hreq. subst rpc.
    unfold serve, reply. simpl. unfold logout.
    destruct (decodedExp tok) as [e|]; simpl;
      [destruct (Js.toISOString (e * 1000)) as [iso|]; simpl|].
    + split; [right; exists iso; reflexivity|].
      intros other now Hne. unfold verifyToken, isBlacklisted. simpl.
      rewrite some_push. simpl.
      assert (E : (tok =? other)%string = false)
        by (apply String.eqb_neq; auto).
      rewrite E, orb_false_r. reflexivity.
    + split; [left; reflexivity | reflexivity].
    + split; [left; reflexivity | reflexivity].
Qed.

(** X18. Two runs of [cleanBlacklist] amount to one run at the later of the
    two instants, in either order; in particular a second run at the same
    instant removes nothing more. *)
Theorem cleanBlacklist_twice (t1 t2 : Z) (st : Store) :
  cleanBlacklist t2 (cleanBlacklist t1 st) = cleanBlacklist (Z.max t1 t2) st /\
  cleanBlacklist t1 (cleanBlacklist t1 st) = cleanBlacklist t1 st.
Proof.
  assert (H : forall a b,
             cleanBlacklist b (cleanBlacklist a st)
             = cleanBlacklist (Z.max a b) st).
  { intros a b. unfold cleanBlacklist, setBlacklist. simpl. f_equal.
    rewrite filter_filter. apply filter_ext. intros item.
    destruct (a <? expiresAt item) eqn:Ea; destruct (b <? expiresAt item) eqn:Eb;
      destruct (Z.max a b <? expiresAt item) eqn:Em; simpl; auto;
      rewrite ?Z.ltb_lt, ?Z.ltb_ge in *; lia. }
  split; [apply H|]. rewrite H, Z.max_id. reflexivity.
Qed.

(** ** After a user is deleted *)

Lemma deleteUser_keeps_the_others_witness :
  In bobNote (notes (snd (deleteUser "u1" sampleStore))) /\
  ~ In aliceNote (notes (snd (deleteUser "u1" sampleStore))).
Proof.
  destruct (deleteUser_keeps_the_others "u1" sampleStore eq_refl)
    as (_ & Hnotes & _).
  split.
  - apply Hnotes. split; [right; left; reflexivity | discriminate].
  - intros H. apply Hnotes in H. destruct H as [_ H]. apply H. reflexivity.
Defined.

(** X19. Once [deleteUser] has succeeded for an id, the reads under that
    owner find nothing: [getNotes] and [getTags] answer the empty list, and
    [getNote] and [getTag] answer not found for every id.  The lists that
    [getNotes] and [getTags] answer for any other user are what they
    were. *)
Theorem reads_after_deleteUser (id : string) (st : Store) :
  success (fst (deleteUser id st)) = true ->
  let st' := snd (deleteUser id st) in
  (forall a t, fst (getNotes (mkNoteFilter id a t) st')
               = ok "Notes retrieved successfully" []) /\
  fst (getTags id st') = ok "Tags retrieved successfully" [] /\
  (forall nid, fst (getNote (mkOwnedId nid id) st') = failure "Note not found") /\
  (forall tid, fst (getTag (mkOwnedId tid id) st') = failure "Tag not found") /\
  (forall other a t, other <> id ->
     fst (getNotes (mkNoteFilter other a t) st')
     = fst (getNotes (mkNoteFilter other a t) st)) /\
  (forall other, other <> id -> fst (getTags other st') = fst (getTags other st)).
Proof.
  unfold deleteUser.
  destruct (Js.findIndex (hasId id) (users st)) as [i|]; simpl;
    [intros _ | discriminate].
  assert (Hn : forall other,
             filter (fun note => (note_userId note =? other)%string)
               (filter (fun note => negb (note_userId note =? id)%string) (notes st))
             = if (other =? id)%string then []
               else filter (fun note => (note_userId note =? other)%string)
                      (notes st)).
  { intros other. rewrite filter_filter.
    destruct (other =? id)%string eqn:E.
    - apply String.eqb_eq in E. subst other.
      rewrite <- (filter_false (notes st)). apply filter_ext. intros n.
      destruct (note_userId n =? id)%string; reflexivity.
    - apply filter_ext. intros n.
      destruct (note_userId n =? other)%string eqn:Eo; simpl.
      + apply String.eqb_eq in Eo. rewrite Eo, E. reflexivity.
      + rewrite andb_false_r. reflexivity. }
  assert (Ht : forall other,
             filter (fun tag => (tag_userId tag =? other)%string)
               (filter (fun tag => negb (tag_userId tag =? id)%string) (tags st))
             = if (other =? id)%string then []
               else filter (fun tag => (tag_userId tag =? other)%string)
                      (tags st)).
  { intros other. rewrite filter_filter.
    destruct (other =? id)%string eqn:E.
    - apply String.eqb_eq in E. subst other.
      rewrite <- (filter_false (tags st)). apply filter_ext. intros n.
      destruct (tag_userId n =? id)%string; reflexivity.
    - apply filter_ext. intros n.
      destruct (tag_userId n =? other)%string eqn:Eo; simpl.
      + apply String.eqb_eq in Eo. rewrite Eo, E. reflexivity.
      + rewrite andb_false_r. reflexivity. }
  split; [|split; [|split; [|split; [|split]]]].
  - intros a t. unfold getNotes. simpl. rewrite Hn, String.eqb_refl.
    destruct a; destruct (Js.truthy t); reflexivity.
  - unfold getTags. simpl. rewrite Ht, String.eqb_refl. reflexivity.
  - intros nid. unfold getNote. simpl.
    assert (E : Js.find (ownedNote nid id)
                  (filter (fun note => negb (note_userId note =? id)%string)
                     (notes st)) = None).
    { apply find_none_iff. intros n Hin. apply filter_In in Hin.
      destruct Hin as [_ Hin]. unfold ownedNote.
      apply negb_true_iff in Hin. rewrite Hin. apply andb_false_r. }
    rewrite E. reflexivity.
  - intros tid. unfold getTag. simpl.
    assert (E : Js.find (ownedTag tid id)
                  (filter (fun tag => negb (tag_userId tag =? id)%string)
                     (tags st)) = None).
    { apply find_none_iff. intros n Hin. apply filter_In in Hin.
      destruct Hin as [_ Hin]. unfold ownedTag.
      apply negb_true_iff in Hin. rewrite Hin. apply andb_false_r. }
    rewrite E. reflexivity.
  - intros other a t Hne. unfold getNotes. simpl. rewrite Hn.
    apply String.eqb_neq in Hne. rewrite Hne. reflexivity.
  - intros other Hne. unfold getTags. simpl. rewrite Ht.
    apply String.eqb_neq in Hne. rewrite Hne. reflexivity.
Qed.

Lemma reads_after_deleteUser_witness :
  fst (getNotes (mkNoteFilter "u1" None None) (snd (deleteUser "u1" sampleStore)))
  = ok "Notes retrieved successfully" [] /\
  fst (getNotes (mkNoteFilter "u2" None None) (snd (deleteUser "u1" sampleStore)))
  = fst (getNotes (mkNoteFilter "u2" None None) sampleStore).
Proof.
  destruct (reads_after_deleteUser "u1" sampleStore eq_refl)
    as (Hmine & _ & _ & _ & Hothers & _).
  split.
  - apply Hmine.
  - apply Hothers. discriminate.
Defined.

(** ** The REST routes *)

(** X20. The middleware of the REST routes and [verifyToken] of the gRPC
    service judge a bearer token alike: the middleware lets a non-empty
    token through with the claims that [verifyToken] answers as valid, and
    its two refusals, 401 for a revoked token and 403 for one that
    [jwt.verify] turns down, are the two refusals of [verifyToken].  A
    request without a token is refused with 401 before any look-up. *)
Theorem rest_gate_agrees_with_verifyToken {J : Jwt} (SECRET_KEY tok : string)
    (now : Z) (st : Store) :
  tok <> ""%string ->
  (forall user,
      Rest.authenticateToken SECRET_KEY (Some tok) now st = Rest.Next user <->
      verifyToken SECRET_KEY tok now st = Valid user) /\
  (Rest.authenticateToken SECRET_KEY (Some tok) now st
   = Rest.Rejected 401 "Token is no longer valid" <->
   verifyToken SECRET_KEY tok now st = NotValid "Token has been revoked") /\
  (Rest.authenticateToken SECRET_KEY (Some tok) now st
   = Rest.Rejected 403 "Invalid or expired token" <->
   verifyToken SECRET_KEY tok now st = NotValid "Invalid token") /\
  Rest.authenticateToken SECRET_KEY None now st
  = Rest.Rejected 401 "Authentication required" /\
  Rest.authenticateToken SECRET_KEY (Some ""%string) now st
  = Rest.Rejected 401 "Authentication required".
Proof.
  intros Hne. apply String.eqb_neq in Hne.
  unfold Rest.authenticateToken, verifyToken, isBlacklisted. simpl.
  rewrite Hne. simpl.
  destruct (Js.some _ (tokenBlacklist st)); simpl.
  - repeat split; intros H; try discriminate; reflexivity.
  - destruct (jwt_verify tok SECRET_KEY now) as [u|]; simpl;
      repeat split; intros H; try discriminate; try reflexivity;
      inversion H; reflexivity.
Qed.

Lemma rest_gate_agrees_with_verifyToken_witness :
  Rest.authenticateToken (J := sampleJwt) "server-key" (Some "h.p.good"%string)
    1700000100000 sampleStore
  = Rest.Next aliceClaims.
Proof.
  apply (proj1 (rest_gate_agrees_with_verifyToken (J := sampleJwt) "server-key"
                  "h.p.good" 1700000100000 sampleStore
                  ltac:(discriminate))).
  reflexivity.
Defined.


Lemma stripOwned_complete (id userId : string) (l : list Note) :
  (forall n, In n l -> note_userId n = userId -> note_tagIds n <> None) ->
  Rest.stripOwned id userId l
  = (map (fun n => if (note_userId n =? userId)%string then stripTag id n else n) l,
     true).
Proof.
  induction l as [|a l IH]; simpl; intros H; auto.
  rewrite IH by (intros n Hn; apply H; auto). simpl.
  destruct (note_userId a =? userId)%string eqn:E; auto.
  apply String.eqb_eq in E.
  destruct (note_tagIds a) eqn:Ht; auto.
  exfalso. apply (H a); auto.
Qed.

Lemma stripOwned_throws (id userId : string) (l : list Note) :
  snd (Rest.stripOwned id userId l) = false <->
  exists n, In n l /\ note_userId n = userId /\ note_tagIds n = None.
Proof.
  split.
  - induction l as [|a l IH]; simpl; intros Hs; [discriminate|].
    destruct (note_userId a =? userId)%string eqn:E.
    + apply String.eqb_eq in E. destruct (note_tagIds a) eqn:Ht; simpl in Hs.
      * destruct (IH Hs) as (n & Hn & Hrest).
        exists n; split; [right; exact Hn | exact Hrest].
      * exists a. split; [left; reflexivity | auto].
    + simpl in Hs. destruct (IH Hs) as (n & Hn & Hrest).
      exists n; split; [right; exact Hn | exact Hrest].
  - intros (n & Hn & Hu & Ht).
    destruct (snd (Rest.stripOwned id userId l)) eqn:Hs; [|reflexivity].
    exfalso. clear - Hn Hu Ht Hs.
    induction l as [|a l IH]; simpl in *; [contradiction|].
    destruct (note_userId a =? userId)%string eqn:E.
    + destruct (note_tagIds a) eqn:Hta; simpl in Hs; [|discriminate].
      destruct Hn as [<- | Hn]; [congruence | auto].
    + simpl in Hs. destruct Hn as [<- | Hn]; auto.
      apply String.eqb_neq in E. contradiction.
Qed.

(** X22. [DELETE /tags/:id].  Without a tag of that id and owner the route
    answers 404 and changes nothing.  With one, and when every note of the
    owner has its [tagIds], it strips the id from the notes of the owner and
    from no other note and takes that tag out; the answer is the success
    when the writes of [saveData] go through and 500 when one throws, the
    tag being gone in both cases.  A note of the owner without [tagIds]
    makes it answer 500 with the tag still in place. *)
Theorem rest_deleteTag_outcomes (saved : bool) (req : OwnedId) (st : Store) :
  let r := Rest.deleteTagSaving saved req st in
  ((forall tag, In tag (tags st) ->
                ~ (tag_id tag = owned_id req /\ tag_userId tag = owned_userId req)) ->
   r = (inl (404, "Tag not found"), st)) /\
  (forall i,
      Js.findIndex (ownedTag (owned_id req) (owned_userId req)) (tags st) = Some i ->
      (forall n, In n (notes st) -> note_userId n = owned_userId req ->
                 note_tagIds n <> None) ->
      r = (if saved then inr "Tag deleted successfully"
           else inl (500, "Error deleting tag"),
           mkStore (users st)
             (map (fun n => if (note_userId n =? owned_userId req)%string
                            then stripTag (owned_id req) n else n) (notes st))
             (Js.splice1 i (tags st)) (tokenBlacklist st))) /\
  (forall i,
      Js.findIndex (ownedTag (owned_id req) (owned_userId req)) (tags st) = Some i ->
      (exists n, In n (notes st) /\ note_userId n = owned_userId req /\
                 note_tagIds n = None) ->
      fst r = inl (500, "Error deleting tag") /\
      tags (snd r) = tags st /\ users (snd r) = users st /\
      tokenBlacklist (snd r) = tokenBlacklist st).
Proof.
  unfold Rest.deleteTagSaving. split; [|split].
  - intros Hnone.
    destruct (Js.findIndex _ (tags st)) as [i|] eqn:Hi; [|reflexivity].
    destruct (findIndex_nth _ _ _ Hi) as (tag & Hnth & Hp & _).
    apply ownedTag_true in Hp. exfalso.
    apply (Hnone tag); auto. eapply nth_error_In; eauto.
  - intros i Hi Hall. rewrite Hi, (stripOwned_complete _ _ _ Hall). simpl.
    destruct saved; reflexivity.
  - intros i Hi Hbad. rewrite Hi.
    apply (stripOwned_throws (owned_id req)) in Hbad. rewrite Hbad. simpl.
    repeat split.
Qed.

Lemma rest_deleteTag_keeps_foreign_notes_witness :
  nth_error (notes (snd (Rest.deleteTag (mkOwnedId "t1" "u1") sampleStore))) 1
  = Some bobNote.
Proof.
  apply (rest_deleteTag_keeps_foreign_notes (mkOwnedId "t1" "u1") sampleStore
           1 bobNote eq_refl).
  discriminate.
Defined.

Lemma rest_deleteUser_never_orphans_witness :
  orphans "u1"
    (mkStore [ mkUser "u1" "alice" "$2b$10$pw1"; mkUser "u2" "bob" "$2b$10$pw2" ]
       [ bobNote ] [ aliceTag ] [])
  = false.
Proof.
  apply (rest_deleteUser_never_orphans "u1" sampleStore).
  left. reflexivity.
Defined.

(** ** The data files *)

(** X24. One unreadable file hides the files after it.  [loadData] reads
    [users.json], [notes.json], [tags.json] and [blacklist.json] in that
    order inside one [try].  The arrays of the files before the first one
    that does not parse are loaded, each with what its file holds; the array
    of that file and of every file after it stays empty, whatever those
    files hold.  When every file parses or is absent, each array is what its
    file holds, and the array of an absent file is empty. *)
Theorem loadData_stops_at_first_corrupt_file (d : Disk) :
  (usersFile d = Corrupt -> loadData d = emptyStore) /\
  (usersFile d <> Corrupt -> notesFile d = Corrupt ->
   loadData d = mkStore (contents (usersFile d)) [] [] []) /\
  (usersFile d <> Corrupt -> notesFile d <> Corrupt -> tagsFile d = Corrupt ->
   loadData d
   = mkStore (contents (usersFile d)) (contents (notesFile d)) [] []) /\
  (usersFile d <> Corrupt -> notesFile d <> Corrupt -> tagsFile d <> Corrupt ->
   blacklistFile d = Corrupt ->
   loadData d
   = mkStore (contents (usersFile d)) (contents (notesFile d))
       (contents (tagsFile d)) []) /\
  (usersFile d <> Corrupt -> notesFile d <> Corrupt -> tagsFile d <> Corrupt ->
   blacklistFile d <> Corrupt ->
   loadData d
   = mkStore (contents (usersFile d)) (contents (notesFile d))
       (contents (tagsFile d)) (contents (blacklistFile d))) /\
  (forall A (a : list A), contents (Content a) = a) /\
  (forall A, @contents A Missing = []).
Proof.
  unfold loadData.
  destruct (usersFile d); destruct (notesFile d); destruct (tagsFile d);
    destruct (blacklistFile d); simpl;
    repeat split; intros; try discriminate; try reflexivity;
    try congruence.
Qed.

(** ** Overlapping registrations *)

(** [register] served alone is its two turns run back to back. *)
Lemma register_is_test_then_callback {J : Jwt} {B : Bcrypt}
    (SECRET_KEY uuid salt : string) (now : Z) (req : Credentials) (st : Store) :
  register SECRET_KEY uuid salt now req st
  = match registerTest req st with
    | Some refusal => (refusal, st)
    | None => registerCallback SECRET_KEY uuid salt now req st
    end.
Proof.
  unfold register, registerTest, registerCallback.
  destruct (Js.some _ (users st)); reflexivity.
Qed.

(** X23. Two registrations of one username that overlap both succeed.  When
    nobody has the username and bcrypt hashes the two passwords, the test
    of each call passes on the store as it is, and the two callbacks, run
    one after the other, each answer a success and push a user: the store
    ends with two users of that username. *)
Theorem overlapping_registers_share_a_username {J : Jwt} {B : Bcrypt}
    (SECRET_KEY uuid1 uuid2 salt1 salt2 : string) (now1 now2 : Z)
    (req1 req2 : Credentials) (st : Store) (h1 h2 : string) :
  cred_username req1 = cred_username req2 ->
  (forall u, In u (users st) -> user_username u <> cred_username req1) ->
  bcrypt_hash (cred_password req1) salt1 = Some h1 ->
  bcrypt_hash (cred_password req2) salt2 = Some h2 ->
  registerTest req1 st = None /\ registerTest req2 st = None /\
  let r1 := registerCallback SECRET_KEY uuid1 salt1 now1 req1 st in
  let r2 := registerCallback SECRET_KEY uuid2 salt2 now2 req2 (snd r1) in
  success (fst r1) = true /\ success (fst r2) = true /\
  users (snd r2)
  = (users st ++ [ mkUser uuid1 (cred_username req1) h1;
                   mkUser uuid2 (cred_username req1) h2 ])%list /\
  ~ NoDup (map user_username (users (snd r2))).
Proof.
  intros Hsame Hfresh Hh1 Hh2.
  assert (Ht : registerTest req1 st = None).
  { unfold registerTest.
    rewrite (proj2 (some_username_false _ _) Hfresh). reflexivity. }
  split; [exact Ht|]. split.
  { unfold registerTest in *. rewrite <- Hsame. exact Ht. }
  unfold registerCallback. rewrite Hh1. simpl. rewrite Hh2. simpl.
  rewrite <- Hsame. unfold Js.push. rewrite <- app_assoc. simpl.
  repeat split.
  intros Hnd. rewrite map_app in Hnd. simpl in Hnd.
  apply NoDup_remove_2 in Hnd. apply Hnd.
  apply in_or_app. right. left. reflexivity.
Qed.

Lemma overlapping_registers_share_a_username_witness :
  map user_username
    (users (snd (registerCallback (J := sampleJwt) (B := plainBcrypt)
                   "server-key" "id-2" "salt" 20 (mkCredentials "dup" "pw-b")
                   (snd (registerCallback (J := sampleJwt) (B := plainBcrypt)
                           "server-key" "id-1" "salt" 10
                           (mkCredentials "dup" "pw-a") sampleStore)))))
  = ["alice"; "bob"; "dup"; "dup"]%string.
Proof.
  destruct (overlapping_registers_share_a_username
              (J := sampleJwt) (B := plainBcrypt)
              "server-key" "id-1" "id-2" "salt" "salt" 10 20
              (mkCredentials "dup" "pw-a") (mkCredentials "dup" "pw-b")
              sampleStore "$2b$10$pw-a" "$2b$10$pw-b" eq_refl)
    as (_ & _ & _ & _ & Husers & _).
  - intros u Hu. simpl in Hu.
    destruct Hu as [<- | [<- | []]]; discriminate.
  - reflexivity.
  - reflexivity.
  - rewrite Husers. reflexivity.
Defined.

(** ** The REST gate *)

(** X26. What a route behind [authenticateToken] answers.  Without a token,
    or with the empty one, 401 ['Authentication required']; with a token of
    the revocation list, 401 ['Token is no longer valid'], whether
    [jwt.verify] would accept it or not; with any other token that
    [jwt.verify] turns down, 403; in all three cases the handler does not
    run and the store is not touched.  Only a token that is not revoked and
    that [jwt.verify] accepts gets the answer and the store of the
    handler. *)
Theorem rest_guarded_outcomes {J : Jwt} (SECRET_KEY : string) {A}
    (handler : Store -> A * Store) (bearer : option string) (now : Z)
    (st : Store) :
  let r := Rest.guarded SECRET_KEY handler bearer now st in
  (bearer = None \/ bearer = Some ""%string ->
   r = (inl (401, "Authentication required"), st)) /\
  (forall tok,
      bearer = Some tok -> tok <> ""%string ->
      (exists item, In item (tokenBlacklist st) /\ token item = tok) ->
      r = (inl (401, "Token is no longer valid"), st)) /\
  (forall tok,
      bearer = Some tok -> tok <> ""%string ->
      (forall item, In item (tokenBlacklist st) -> token item <> tok) ->
      jwt_verify tok SECRET_KEY now = None ->
      r = (inl (403, "Invalid or expired token"), st)) /\
  (forall tok user,
      bearer = Some tok -> tok <> ""%string ->
      (forall item, In item (tokenBlacklist st) -> token item <> tok) ->
      jwt_verify tok SECRET_KEY now = Some user ->
      r = (inr (fst (handler st)), snd (handler st))).
Proof.
  unfold Rest.guarded, Rest.authenticateToken. simpl.
  assert (Hbl : forall tok,
             (forall item, In item (tokenBlacklist st) -> token item <> tok) ->
             Js.some (fun item => (token item =? tok)%string) (tokenBlacklist st)
             = false).
  { intros tok Hnone.
    destruct (Js.some _ (tokenBlacklist st)) eqn:E; [|reflexivity].
    apply (isBlacklisted_In tok st) in E. destruct E as (item & Hin & Heq).
    exfalso. eapply Hnone; eauto. }
  split; [|split; [|split]].
  - intros [-> | ->]; reflexivity.
  - intros tok -> Hne Hrev. simpl.
    apply String.eqb_neq in Hne. rewrite Hne. simpl.
    apply (isBlacklisted_In tok st) in Hrev. unfold isBlacklisted in Hrev.
    rewrite Hrev. reflexivity.
  - intros tok -> Hne Hnone Hv. simpl.
    apply String.eqb_neq in Hne. rewrite Hne. simpl.
    rewrite (Hbl tok Hnone), Hv. reflexivity.
  - intros tok user -> Hne Hnone Hv. simpl.
    apply String.eqb_neq in Hne. rewrite Hne. simpl.
    rewrite (Hbl tok Hnone), Hv. reflexivity.
Qed.
